(** * Rep counter: the Gemini classifier adapter and the App state machine

    A shallow embedding of [services/geminiService.ts] (the adapter
    [analyzeFrame]) and of the [App] component (the handlers
    [analyzeFrame], [startCounting], [stopCounting], [resetCounter],
    [handleSelectExercise]), with the browser's table of active timers and
    the classification requests in flight made explicit. *)

From Stdlib Require Import NArith ZArith String Ascii List Bool Lia.
From stdpp Require Import base option gmap.
Import ListNotations.

Local Open Scope Z_scope.

(** ** types.ts *)

Inductive Exercise := Pushups | Squats | JumpingJacks.

(** [type RepState = 'UP' | 'DOWN' | 'NEUTRAL'] *)
Inductive RepState := UP | DOWN | NEUTRAL.

#[global] Instance Exercise_eq_dec : EqDecision Exercise.
Proof. solve_decision. Defined.

#[global] Instance RepState_eq_dec : EqDecision RepState.
Proof. solve_decision. Defined.

(** The string value of each enum member, as the source file spells it. *)
Definition Exercise_value (e : Exercise) : string :=
  match e with
  | Pushups => "شنا سوئدی"
  | Squats => "اسکات"
  | JumpingJacks => "پروانه"
  end.

Definition RepState_value (p : RepState) : string :=
  match p with
  | UP => "UP"
  | DOWN => "DOWN"
  | NEUTRAL => "NEUTRAL"
  end.

(** ** JavaScript strings

    The text of a model response is a JavaScript string: a sequence of UTF-16
    code units.  [trim] and [toUpperCase] are defined on that sequence. *)
Module JS.

Definition jsstring := list N.

(** An ASCII literal of the source as code units. *)
Fixpoint lit (s : string) : list N :=
  match s with
  | EmptyString => []
  | String c r => N_of_ascii c :: lit r
  end.

(** [a === b] on strings. *)
Fixpoint str_eqb (a b : list N) : bool :=
  match a, b with
  | [], [] => true
  | x :: a', y :: b' => N.eqb x y && str_eqb a' b'
  | _, _ => false
  end.

(** WhiteSpace and LineTerminator code points of ECMAScript (all in the
    basic plane): TAB, LF, VT, FF, CR, SP, NBSP, the Zs category, LS, PS and
    the byte order mark. *)
Definition isWhiteSpace (u : N) : bool :=
  ((9 <=? u) && (u <=? 13) || (u =? 32) || (u =? 160) || (u =? 5760)
   || (8192 <=? u) && (u <=? 8202) || (u =? 8232) || (u =? 8233)
   || (u =? 8239) || (u =? 8287) || (u =? 12288) || (u =? 65279))%N.

Fixpoint trimStart (s : list N) : list N :=
  match s with
  | u :: r => if isWhiteSpace u then trimStart r else s
  | [] => []
  end.

Definition trimEnd (s : list N) : list N := rev (trimStart (rev s)).

Definition trim (s : list N) : list N := trimEnd (trimStart s).

(** Code points of a string: a leading surrogate followed by a trailing one
    is one supplementary code point, any other code unit stands for itself. *)
Definition isLeadingSurrogate (u : N) : bool := ((55296 <=? u) && (u <=? 56319))%N.
Definition isTrailingSurrogate (u : N) : bool := ((56320 <=? u) && (u <=? 57343))%N.

Fixpoint codePoints (s : list N) : list N :=
  match s with
  | [] => []
  | h :: r =>
      match r with
      | l :: r' =>
          if isLeadingSurrogate h && isTrailingSurrogate l
          then (65536 + (h - 55296) * 1024 + (l - 56320))%N :: codePoints r'
          else h :: codePoints r
      | [] => [h]
      end
  end.

Definition codeUnits (cp : N) : list N :=
  if (cp <? 65536)%N then [cp]
  else [(55296 + (cp - 65536) / 1024)%N; (56320 + (cp - 65536) mod 1024)%N].

(** The upper-case mapping on ASCII: the letters a to z move to A to Z. *)
Definition asciiUpper (u : N) : N :=
  if ((97 <=? u) && (u <=? 122))%N then (u - 32)%N else u.

Definition isAsciiLetter (u : N) : bool :=
  ((65 <=? u) && (u <=? 90) || (97 <=? u) && (u <=? 122))%N.

(** [t] spells [word]: whitespace, then the letters of [word] in either
    case, then whitespace. *)
Definition spells (word t : list N) : Prop :=
  exists ws1 w ws2,
    forallb isWhiteSpace ws1 = true /\ forallb isWhiteSpace ws2 = true
    /\ map asciiUpper w = word /\ t = ws1 ++ w ++ ws2.

Definition isAscii (t : list N) : bool := forallb (fun u => u <? 128)%N t.

Section Upper.

(** The upper-case mapping of the Unicode character database for the code
    points outside ASCII (one code point may map to several).  It is data
    of the JavaScript runtime; the adapter is verified for every such
    table. *)
Variable unicodeUpper : N -> list N.

Definition upperCodePoint (cp : N) : list N :=
  if (cp <? 128)%N then [asciiUpper cp] else unicodeUpper cp.

Definition toUpperCase (s : list N) : list N :=
  flat_map codeUnits (flat_map upperCodePoint (codePoints s)).

End Upper.

End JS.

(** ** services/geminiService.ts *)
Module Gemini.
Import JS.

Inductive JsError :=
| ApiError (message : string)
| TypeError (message : string).

(** How an evaluation completes: normally with a value, or by throwing. *)
Inductive Completion (A : Type) :=
| Normal (a : A)
| Throw (e : JsError).
Arguments Normal {A} a.
Arguments Throw {A} e.

(** A settled promise, as [await] observes it. *)
Inductive Promise (A : Type) :=
| Fulfilled (a : A)
| Rejected (e : JsError).
Arguments Fulfilled {A} a.
Arguments Rejected {A} e.

#[global] Instance Completion_ret : MRet Completion := fun A a => Normal a.
#[global] Instance Completion_bind : MBind Completion := fun A B f c =>
  match c with
  | Normal a => f a
  | Throw e => Throw e
  end.

Definition await {A} (p : Promise A) : Completion A :=
  match p with
  | Fulfilled a => Normal a
  | Rejected e => Throw e
  end.

(** The promise an [async] function returns for the completion of its body. *)
Definition async {A} (c : Completion A) : Promise A :=
  match c with
  | Normal a => Fulfilled a
  | Throw e => Rejected e
  end.

Definition try_catch {A} (body : Completion A) (handler : JsError -> Completion A)
  : Completion A :=
  match body with
  | Normal a => Normal a
  | Throw e => handler e
  end.

Definition model : string := "gemini-2.5-flash".

Definition basePrompt (exercise : Exercise) : string :=
  ("You are a fitness AI assistant. Analyze the user's position in this image. The user is doing "
   ++ Exercise_value exercise ++ ".
  Determine if their body is in the 'UP' position or the 'DOWN' position for one repetition.
  Respond with ONLY one of the following words: 'UP', 'DOWN', or 'NEUTRAL'.")%string.

Definition getPromptForExercise (exercise : Exercise) : string :=
  match exercise with
  | Pushups =>
      (basePrompt exercise ++ " For push-ups, 'DOWN' is when the chest is close to the floor. 'UP' is when the arms are fully extended.")%string
  | Squats =>
      (basePrompt exercise ++ " For squats, 'DOWN' is when the hips are at or below the knees. 'UP' is when the person is standing straight.")%string
  | JumpingJacks =>
      (basePrompt exercise ++ " For jumping jacks, 'DOWN' is when the feet are together and arms are at the sides. 'UP' is when the feet are apart and arms are overhead.")%string
  end.

Record InlineData := { mimeType : string; data : string }.

Record GenerateContentParameters := {
  gc_model : string;
  gc_image : InlineData;
  gc_text : string
}.

(** [response.text] is a getter that yields a string or [undefined]. *)
Record GenerateContentResponse := { text : option jsstring }.

(** A label as the string the adapter returns for it. *)
Definition labelText (p : RepState) : jsstring := lit (RepState_value p).

Section Adapter.

Variable unicodeUpper : N -> list N.

(** [ai.models.generateContent]: the remote model, any behaviour. *)
Variable generateContent : GenerateContentParameters -> Promise GenerateContentResponse.

Definition request (base64Image : string) (exercise : Exercise) : GenerateContentParameters :=
  {| gc_model := model;
     gc_image := {| mimeType := "image/jpeg"; data := base64Image |};
     gc_text := getPromptForExercise exercise |}.

(** [response.text.trim().toUpperCase()]: a method call on [undefined]
    throws a TypeError. *)
Definition normalizedText (response : GenerateContentResponse) : Completion jsstring :=
  match text response with
  | Some t => Normal (toUpperCase unicodeUpper (trim t))
  | None => Throw (TypeError "Cannot read properties of undefined (reading 'trim')")
  end.

Definition analyzeFrame (base64Image : string) (exercise : Exercise) : Promise jsstring :=
  async
    (try_catch
       (response ← await (generateContent (request base64Image exercise));
        txt ← normalizedText response;
        if str_eqb txt (lit "UP") || str_eqb txt (lit "DOWN")
           || str_eqb txt (lit "NEUTRAL")
        then mret txt
        else mret (lit "NEUTRAL"))
       (fun error => mret (lit "NEUTRAL"))).

(** The raw text of a fulfilled response, trimmed and upper-cased. *)
Definition normalize (t : jsstring) : jsstring := toUpperCase unicodeUpper (trim t).

End Adapter.

End Gemini.

(** ** The App component *)
Module App.

(** What a timer of the browser runs when it fires.  The interval started by
    [startCounting] runs the [analyzeFrame] of the render that started it,
    which closed over that render's [selectedExercise]; the timeout set on a
    counted repetition clears the cooldown flag. *)
Inductive Timer :=
| AnalysisInterval (captured : option Exercise)
| CooldownTimeout.

(** The component's state ([useState]), its refs ([useRef]) and, below them,
    what the browser holds for it: the map of active timers with the next
    fresh handle, and the classification requests awaiting their result.
    [repCount] is a JavaScript number that only ever holds 0 or a successor
    of its previous value; numbers are exact on integers up to 2^53, which a
    counter fed once a second does not approach, so it is an integer here. *)
Record State := MkState {
  selectedExercise : option Exercise;
  repCount : Z;
  isCounting : bool;
  cameraReady : bool;
  cameraError : option string;
  feedbackMessage : string;
  lastPosition : RepState;
  repStateCooldown : bool;
  analysisIntervalRef : option positive;
  timers : gmap positive Timer;
  nextTimer : positive;
  pending : list (string * Exercise)
}.

Definition setSelectedExercise (v : option Exercise) (s : State) : State :=
  {| selectedExercise := v; repCount := repCount s; isCounting := isCounting s;
     cameraReady := cameraReady s; cameraError := cameraError s;
     feedbackMessage := feedbackMessage s; lastPosition := lastPosition s;
     repStateCooldown := repStateCooldown s;
     analysisIntervalRef := analysisIntervalRef s; timers := timers s;
     nextTimer := nextTimer s; pending := pending s |}.

Definition setRepCount (f : Z -> Z) (s : State) : State :=
  {| selectedExercise := selectedExercise s; repCount := f (repCount s);
     isCounting := isCounting s; cameraReady := cameraReady s;
     cameraError := cameraError s; feedbackMessage := feedbackMessage s;
     lastPosition := lastPosition s; repStateCooldown := repStateCooldown s;
     analysisIntervalRef := analysisIntervalRef s; timers := timers s;
     nextTimer := nextTimer s; pending := pending s |}.

Definition setIsCounting (v : bool) (s : State) : State :=
  {| selectedExercise := selectedExercise s; repCount := repCount s; isCounting := v;
     cameraReady := cameraReady s; cameraError := cameraError s;
     feedbackMessage := feedbackMessage s; lastPosition := lastPosition s;
     repStateCooldown := repStateCooldown s;
     analysisIntervalRef := analysisIntervalRef s; timers := timers s;
     nextTimer := nextTimer s; pending := pending s |}.

Definition setCameraReady (v : bool) (s : State) : State :=
  {| selectedExercise := selectedExercise s; repCount := repCount s;
     isCounting := isCounting s; cameraReady := v; cameraError := cameraError s;
     feedbackMessage := feedbackMessage s; lastPosition := lastPosition s;
     repStateCooldown := repStateCooldown s;
     analysisIntervalRef := analysisIntervalRef s; timers := timers s;
     nextTimer := nextTimer s; pending := pending s |}.

Definition setCameraError (v : option string) (s : State) : State :=
  {| selectedExercise := selectedExercise s; repCount := repCount s;
     isCounting := isCounting s; cameraReady := cameraReady s; cameraError := v;
     feedbackMessage := feedbackMessage s; lastPosition := lastPosition s;
     repStateCooldown := repStateCooldown s;
     analysisIntervalRef := analysisIntervalRef s; timers := timers s;
     nextTimer := nextTimer s; pending := pending s |}.

Definition setFeedbackMessage (v : string) (s : State) : State :=
  {| selectedExercise := selectedExercise s; repCount := repCount s;
     isCounting := isCounting s; cameraReady := cameraReady s;
     cameraError := cameraError s; feedbackMessage := v;
     lastPosition := lastPosition s; repStateCooldown := repStateCooldown s;
     analysisIntervalRef := analysisIntervalRef s; timers := timers s;
     nextTimer := nextTimer s; pending := pending s |}.

Definition set_lastPosition (v : RepState) (s : State) : State :=
  {| selectedExercise := selectedExercise s; repCount := repCount s;
     isCounting := isCounting s; cameraReady := cameraReady s;
     cameraError := cameraError s; feedbackMessage := feedbackMessage s;
     lastPosition := v; repStateCooldown := repStateCooldown s;
     analysisIntervalRef := analysisIntervalRef s; timers := timers s;
     nextTimer := nextTimer s; pending := pending s |}.

Definition set_repStateCooldown (v : bool) (s : State) : State :=
  {| selectedExercise := selectedExercise s; repCount := repCount s;
     isCounting := isCounting s; cameraReady := cameraReady s;
     cameraError := cameraError s; feedbackMessage := feedbackMessage s;
     lastPosition := lastPosition s; repStateCooldown := v;
     analysisIntervalRef := analysisIntervalRef s; timers := timers s;
     nextTimer := nextTimer s; pending := pending s |}.

Definition set_analysisIntervalRef (v : option positive) (s : State) : State :=
  {| selectedExercise := selectedExercise s; repCount := repCount s;
     isCounting := isCounting s; cameraReady := cameraReady s;
     cameraError := cameraError s; feedbackMessage := feedbackMessage s;
     lastPosition := lastPosition s; repStateCooldown := repStateCooldown s;
     analysisIntervalRef := v; timers := timers s; nextTimer := nextTimer s;
     pending := pending s |}.

Definition set_timers (f : gmap positive Timer -> gmap positive Timer) (s : State) : State :=
  {| selectedExercise := selectedExercise s; repCount := repCount s;
     isCounting := isCounting s; cameraReady := cameraReady s;
     cameraError := cameraError s; feedbackMessage := feedbackMessage s;
     lastPosition := lastPosition s; repStateCooldown := repStateCooldown s;
     analysisIntervalRef := analysisIntervalRef s; timers := f (timers s);
     nextTimer := nextTimer s; pending := pending s |}.

Definition set_nextTimer (v : positive) (s : State) : State :=
  {| selectedExercise := selectedExercise s; repCount := repCount s;
     isCounting := isCounting s; cameraReady := cameraReady s;
     cameraError := cameraError s; feedbackMessage := feedbackMessage s;
     lastPosition := lastPosition s; repStateCooldown := repStateCooldown s;
     analysisIntervalRef := analysisIntervalRef s; timers := timers s; nextTimer := v;
     pending := pending s |}.

Definition set_pending (f : list (string * Exercise) -> list (string * Exercise)) (s : State) : State :=
  {| selectedExercise := selectedExercise s; repCount := repCount s;
     isCounting := isCounting s; cameraReady := cameraReady s;
     cameraError := cameraError s; feedbackMessage := feedbackMessage s;
     lastPosition := lastPosition s; repStateCooldown := repStateCooldown s;
     analysisIntervalRef := analysisIntervalRef s; timers := timers s;
     nextTimer := nextTimer s; pending := f (pending s) |}.

Definition initial : State :=
  {| selectedExercise := None; repCount := 0; isCounting := false;
     cameraReady := false; cameraError := None;
     feedbackMessage := "حرکت ورزشی را انتخاب کنید";
     lastPosition := NEUTRAL; repStateCooldown := false;
     analysisIntervalRef := None;
     timers := ∅; nextTimer := 1%positive; pending := [] |}.

(** *** Timers of the browser *)

(** [setInterval] and [setTimeout] register the callback under a fresh handle
    and return the handle. *)
Definition addTimer (t : Timer) (s : State) : positive * State :=
  let id := nextTimer s in
  (id, set_nextTimer (Pos.succ id) (set_timers (insert id t) s)).

(** [clearInterval(id)] *)
Definition clearInterval (id : positive) (s : State) : State :=
  set_timers (delete id) s.

(** *** analyzeFrame *)

(** What a tick finds when it looks for a frame: the video and canvas refs,
    the 2D context, and the base64 part of the canvas's data URL. *)
Record FrameSource := {
  videoRef_current : bool;
  canvasRef_current : bool;
  context2d : bool;
  base64Image : option string
}.

(** Lines 76 to 90: the request the tick issues, if it gets that far.  An
    absent or empty [base64Image] is falsy. *)
Definition capture (captured : option Exercise) (src : FrameSource)
  : option (string * Exercise) :=
  match captured with
  | Some exercise =>
      if negb (videoRef_current src) || negb (canvasRef_current src) then None
      else if negb (context2d src) then None
      else match base64Image src with
           | Some img => if String.eqb img "" then None else Some (img, exercise)
           | None => None
           end
  | None => None
  end.

(** [analyzeFrame] up to its [await]: the request is in flight. *)
Definition analyzeFrame_begin (captured : option Exercise) (src : FrameSource)
    (s : State) : State :=
  match capture captured src with
  | Some req =>
      set_pending (fun q => q ++ [req]) (setFeedbackMessage "در حال تحلیل..." s)
  | None => s
  end.

(** [analyzeFrame] from the [await] on, with the label the adapter resolved
    to: the sample-processing transition. *)
Definition analyzeFrame_resume (position : RepState) (s : State) : State :=
  let s := setFeedbackMessage (RepState_value position) s in
  if repStateCooldown s then s
  else
    let s :=
      if bool_decide (lastPosition s = DOWN) && bool_decide (position = UP)
      then
        let s := setRepCount (fun prev => prev + 1) s in
        let s := setFeedbackMessage "عالی!" s in
        let s := set_repStateCooldown true s in
        snd (addTimer CooldownTimeout s)
      else s in
    set_lastPosition position s.

(** One call of [analyzeFrame] whose classification resolves before anything
    else runs; [classify] is the label the adapter resolves to. *)
Definition analyzeFrame (classify : string -> Exercise -> RepState)
    (captured : option Exercise) (src : FrameSource) (s : State) : State :=
  match capture captured src with
  | Some (img, exercise) =>
      analyzeFrame_resume (classify img exercise)
        (setFeedbackMessage "در حال تحلیل..." s)
  | None => s
  end.

(** The label of such a call, when it produces one. *)
Definition tickLabel (classify : string -> Exercise -> RepState)
    (captured : option Exercise) (src : FrameSource) : option RepState :=
  match capture captured src with
  | Some (img, exercise) => Some (classify img exercise)
  | None => None
  end.

(** *** The handlers *)

Definition startCounting (s : State) : State :=
  match selectedExercise s with
  | None => setFeedbackMessage "لطفا ابتدا یک حرکت ورزشی را انتخاب کنید!" s
  | Some _ =>
      let s := setIsCounting true s in
      let s := setFeedbackMessage "آماده!" s in
      let '(id, s) := addTimer (AnalysisInterval (selectedExercise s)) s in
      set_analysisIntervalRef (Some id) s
  end.

Definition stopCounting (s : State) : State :=
  let s := setIsCounting false s in
  let s := match analysisIntervalRef s with
           | Some id => clearInterval id s
           | None => s
           end in
  setFeedbackMessage "متوقف شد. برای ادامه شروع را بزنید." s.

Definition resetCounter (s : State) : State :=
  let selected := selectedExercise s in
  let s := stopCounting s in
  let s := setRepCount (fun _ => 0) s in
  let s := set_lastPosition NEUTRAL s in
  setFeedbackMessage
    (match selected with
     | Some _ => "شمارنده صفر شد"
     | None => "حرکت ورزشی را انتخاب کنید"
     end) s.

Definition handleSelectExercise (exercise : Exercise) (s : State) : State :=
  let s := resetCounter s in
  let s := setSelectedExercise (Some exercise) s in
  setFeedbackMessage
    ("حرکت " ++ Exercise_value exercise ++ " انتخاب شد. برای شروع آماده‌اید؟")%string s.

(** [setupCamera] once [getUserMedia] has settled. *)
Inductive CameraOutcome :=
| StreamGranted (videoMounted : bool)
| StreamDenied
| Unsupported.

Definition setupCamera (o : CameraOutcome) (s : State) : State :=
  match o with
  | StreamGranted true => setCameraError None (setCameraReady true s)
  | StreamGranted false => s
  | StreamDenied =>
      setCameraReady false
        (setCameraError
           (Some "دسترسی به دوربین ممکن نیست. لطفا اجازه دسترسی به دوربین را بدهید."%string) s)
  | Unsupported =>
      setCameraError (Some "مرورگر شما از دسترسی به دوربین پشتیبانی نمی‌کند."%string) s
  end.

(** *** The component as a transition system

    Everything runs on one thread, one task at a time: a handler called from
    the page, a timer firing, or a classification settling. *)
Inductive Event :=
| CameraSettles (o : CameraOutcome)
| Start
| Stop
| Reset
| Select (exercise : Exercise)
| TimerFires (id : positive) (src : FrameSource)
| ClassificationResolves (i : nat) (position : RepState).

Definition step (e : Event) (s : State) : State :=
  match e with
  | CameraSettles o => setupCamera o s
  | Start => startCounting s
  | Stop => stopCounting s
  | Reset => resetCounter s
  | Select exercise => handleSelectExercise exercise s
  | TimerFires id src =>
      match timers s !! id with
      | Some (AnalysisInterval captured) => analyzeFrame_begin captured src s
      | Some CooldownTimeout => set_repStateCooldown false (set_timers (delete id) s)
      | None => s
      end
  | ClassificationResolves i position =>
      match pending s !! i with
      | Some _ => analyzeFrame_resume position (set_pending (delete i) s)
      | None => s
      end
  end.

Definition run (es : list Event) (s : State) : State :=
  fold_left (fun s e => step e s) es s.

(** What the rendered page lets through: the start/pause button calls
    [stopCounting] while counting and [startCounting] otherwise and is
    disabled without an exercise or a camera, the exercise buttons are
    disabled while counting, the reset button while counting at zero. *)
Definition enabled (e : Event) (s : State) : bool :=
  match e with
  | Start => negb (isCounting s) && bool_decide (selectedExercise s ≠ None) && cameraReady s
  | Stop => isCounting s && bool_decide (selectedExercise s ≠ None) && cameraReady s
  | Reset => negb (isCounting s && (repCount s =? 0))
  | Select _ => negb (isCounting s)
  | CameraSettles _ | TimerFires _ _ | ClassificationResolves _ _ => true
  end.

Inductive Reachable : State -> Prop :=
| Reachable_initial : Reachable initial
| Reachable_step e s : Reachable s -> enabled e s = true -> Reachable (step e s).

(** A sequence of events each of which the page lets through in its turn. *)
Fixpoint admissible (es : list Event) (s : State) : bool :=
  match es with
  | [] => true
  | e :: es' => enabled e s && admissible es' (step e s)
  end.

(** A reset or a selection, the two events that zero the counter. *)
Definition resets (e : Event) : bool :=
  match e with
  | Reset | Select _ => true
  | _ => false
  end.

(** No analysis interval is active: no further tick is scheduled. *)
Definition samplingStopped (s : State) : Prop :=
  forall id captured, timers s !! id ≠ Some (AnalysisInterval captured).

(** The active analysis intervals are known to the component: it counts and
    [analysisIntervalRef] holds the handle. *)
Definition intervalsTracked (s : State) : Prop :=
  forall id captured, timers s !! id = Some (AnalysisInterval captured) ->
    analysisIntervalRef s = Some id /\ isCounting s = true.

(** The edge test of line 98 together with the cooldown guard of line 95. *)
Definition countedEdge (position : RepState) (s : State) : Prop :=
  lastPosition s = DOWN /\ position = UP /\ repStateCooldown s = false.

(** Handles are not reused. *)
Definition handlesFresh (s : State) : Prop :=
  forall id, is_Some (timers s !! id) -> (id < nextTimer s)%positive.

(** What holds of every state the page can reach. *)
Definition invariant (s : State) : Prop :=
  intervalsTracked s
  /\ handlesFresh s
  /\ (isCounting s = true -> selectedExercise s <> None)
  /\ 0 <= repCount s.

(** The cleanup of the mount effect (lines 68 to 72): the interval of the ref
    is cleared when the component goes away. *)
Definition unmount (s : State) : State :=
  match analysisIntervalRef s with
  | Some id => clearInterval id s
  | None => s
  end.

(** How the timers of the browser and the refs of the component fit
    together: the ref holds a handle already given out, never that of a
    cooldown timeout; while counting, the ref's interval is active and
    classifies for the selected exercise; and the cooldown flag is on
    exactly while its one timeout is pending. *)
Definition timersConsistent (s : State) : Prop :=
  (forall id, analysisIntervalRef s = Some id -> (id < nextTimer s)%positive)
  /\ (forall id, analysisIntervalRef s = Some id ->
        timers s !! id <> Some CooldownTimeout)
  /\ (isCounting s = true ->
        exists id exercise,
          analysisIntervalRef s = Some id
          /\ timers s !! id = Some (AnalysisInterval (Some exercise))
          /\ selectedExercise s = Some exercise)
  /\ (repStateCooldown s = true ->
        exists id, timers s !! id = Some CooldownTimeout)
  /\ (repStateCooldown s = false ->
        forall id, timers s !! id <> Some CooldownTimeout)
  /\ (forall i j, timers s !! i = Some CooldownTimeout ->
        timers s !! j = Some CooldownTimeout -> i = j).

(** How many classifications of a history resolved to the label [p]. *)
Fixpoint labelsResolved (p : RepState) (es : list Event) : Z :=
  match es with
  | [] => 0
  | ClassificationResolves _ q :: es' =>
      (if bool_decide (q = p) then 1 else 0) + labelsResolved p es'
  | _ :: es' => labelsResolved p es'
  end.

(** Classifications resolving one after the other, nothing in between. *)
Definition resolutions (l : list (nat * RepState)) : list Event :=
  map (fun '(i, p) => ClassificationResolves i p) l.

(** 1 when the last label seen is [DOWN]: a repetition is half done. *)
Definition halfRep (s : State) : Z :=
  if bool_decide (lastPosition s = DOWN) then 1 else 0.

End App.

(** ** A session, step by step *)
Module Session.
Import App.

Definition frame : FrameSource :=
  {| videoRef_current := true; canvasRef_current := true; context2d := true;
     base64Image := Some "/9j/4AAQSkZJRg"%string |}.

(** Camera granted, squats selected, counting started: interval 1 is active. *)
Definition started : list Event :=
  [CameraSettles (StreamGranted true); Select Squats; Start].

(** One tick classified [DOWN], the next tick's request still in flight. *)
Definition downThenInFlight : list Event :=
  started ++ [TimerFires 1 frame; ClassificationResolves 0 DOWN; TimerFires 1 frame].

(** That request resolved to [UP]: one repetition counted, cooldown on. *)
Definition counted : list Event :=
  downThenInFlight ++ [ClassificationResolves 0 UP].

(** Another tick fires before the cooldown timeout does. *)
Definition countedThenInFlight : list Event :=
  counted ++ [TimerFires 1 frame].

(** The user pauses right after the counted repetition. *)
Definition countedThenPaused : list Event :=
  counted ++ [Stop].

(** The states those sessions end in. *)
Definition requestInFlight : State := run downThenInFlight initial.
Definition afterCount : State := run counted initial.
Definition afterCountInFlight : State := run countedThenInFlight initial.
Definition afterCountPaused : State := run countedThenPaused initial.

End Session.

(** * Properties *)

(** ** The adapter *)
Section AdapterFacts.
Import JS Gemini.

Variable unicodeUpper : N -> list N.
Variable generateContent : GenerateContentParameters -> Promise GenerateContentResponse.

Local Notation "'adapter'" := (Gemini.analyzeFrame unicodeUpper generateContent).
Local Notation "'norm'" := (normalize unicodeUpper).

Lemma str_eqb_eq (a b : list N) : str_eqb a b = true <-> a = b.
Proof.
  revert b; induction a as [|x a IH]; intros [|y b]; simpl; try easy.
  rewrite andb_true_iff, N.eqb_eq, IH. split.
  - intros [-> ->]; reflexivity.
  - intros [= -> ->]; split; reflexivity.
Qed.

Lemma str_eqb_refl (a : list N) : str_eqb a a = true.
Proof. apply str_eqb_eq; reflexivity. Qed.

Lemma labelText_inj (p q : RepState) : labelText p = labelText q -> p = q.
Proof. destruct p, q; simpl; intros H; try reflexivity; discriminate H. Qed.

(** The test of line 49, as a fact about labels. *)
Lemma recognized_iff (t : list N) :
  str_eqb t (lit "UP") || str_eqb t (lit "DOWN") || str_eqb t (lit "NEUTRAL") = true
  <-> exists p, t = labelText p.
Proof.
  rewrite !orb_true_iff, !str_eqb_eq. split.
  - intros [[H | H] | H]; [exists UP | exists DOWN | exists NEUTRAL]; exact H.
  - intros [[] H]; auto.
Qed.

(** The adapter, case by case on what the remote model did. *)
Lemma adapter_unfold img ex :
  adapter img ex =
  Fulfilled
    match generateContent (request img ex) with
    | Fulfilled r =>
        match text r with
        | Some t =>
            if str_eqb (norm t) (lit "UP") || str_eqb (norm t) (lit "DOWN")
               || str_eqb (norm t) (lit "NEUTRAL")
            then norm t else labelText NEUTRAL
        | None => labelText NEUTRAL
        end
    | Rejected _ => labelText NEUTRAL
    end.
Proof.
  unfold Gemini.analyzeFrame, normalizedText, normalize.
  destruct (generateContent (request img ex)) as [r|e]; [|reflexivity].
  cbn [await mbind Completion_bind]. destruct (text r) as [t|]; [|reflexivity].
  cbn [mbind Completion_bind].
  destruct (_ || _); reflexivity.
Qed.

Lemma adapter_rejected img ex e :
  generateContent (request img ex) = Rejected e ->
  adapter img ex = Fulfilled (labelText NEUTRAL).
Proof. intros H. rewrite adapter_unfold, H. reflexivity. Qed.

Lemma adapter_undefined_text img ex r :
  generateContent (request img ex) = Fulfilled r -> text r = None ->
  adapter img ex = Fulfilled (labelText NEUTRAL).
Proof. intros H Ht. rewrite adapter_unfold, H, Ht. reflexivity. Qed.

Lemma adapter_recognized img ex r t p :
  generateContent (request img ex) = Fulfilled r -> text r = Some t ->
  norm t = labelText p ->
  adapter img ex = Fulfilled (labelText p).
Proof.
  intros H Ht Hp. rewrite adapter_unfold, H, Ht, Hp. destruct p; reflexivity.
Qed.

Lemma adapter_unrecognized img ex r t :
  generateContent (request img ex) = Fulfilled r -> text r = Some t ->
  (forall p, norm t <> labelText p) ->
  adapter img ex = Fulfilled (labelText NEUTRAL).
Proof.
  intros H Ht Hp. rewrite adapter_unfold, H, Ht.
  destruct (_ || _) eqn:E; [|reflexivity].
  apply recognized_iff in E as [p E]. destruct (Hp p E).
Qed.

(** C5.  Whatever the remote model does, the promise [analyzeFrame] returns
    is fulfilled, never rejected, and its value is the text of exactly one
    label.  When the request is rejected, when the response has no text, or
    when the normalized text is none of the three words, that label is
    [NEUTRAL]. *)
Theorem adapter_never_rejects (img : string) (ex : Exercise) :
  (exists! p, adapter img ex = Fulfilled (labelText p))
  /\ (forall e, generateContent (request img ex) = Rejected e ->
        adapter img ex = Fulfilled (labelText NEUTRAL))
  /\ (forall r, generateContent (request img ex) = Fulfilled r -> text r = None ->
        adapter img ex = Fulfilled (labelText NEUTRAL))
  /\ (forall r t, generateContent (request img ex) = Fulfilled r -> text r = Some t ->
        (forall p, norm t <> labelText p) ->
        adapter img ex = Fulfilled (labelText NEUTRAL)).
Proof.
  split; [|split; [|split]].
  - assert (exists p, adapter img ex = Fulfilled (labelText p)) as [p Hp].
    { destruct (generateContent (request img ex)) as [r|e] eqn:H.
      - destruct (text r) as [t|] eqn:Ht.
        + destruct (str_eqb (norm t) (lit "UP") || str_eqb (norm t) (lit "DOWN")
                    || str_eqb (norm t) (lit "NEUTRAL")) eqn:E.
          * apply recognized_iff in E as [p E]. exists p.
            eapply adapter_recognized; eauto.
          * exists NEUTRAL. eapply adapter_unrecognized; eauto.
            intros p Hp. assert (exists q, norm t = labelText q) as Hq by eauto.
            apply recognized_iff in Hq. congruence.
        + exists NEUTRAL. eapply adapter_undefined_text; eauto.
      - exists NEUTRAL. eapply adapter_rejected; eauto. }
    exists p. split; [exact Hp|].
    intros q Hq. rewrite Hp in Hq. injection Hq as Hq. apply labelText_inj, Hq.
  - apply adapter_rejected.
  - apply adapter_undefined_text.
  - apply adapter_unrecognized.
Qed.

(** *** Trimming and upper-casing ASCII text *)

Lemma trimStart_whitespace ws s :
  forallb isWhiteSpace ws = true -> trimStart (ws ++ s) = trimStart s.
Proof.
  induction ws as [|u ws IH]; simpl; [reflexivity|].
  intros H. apply andb_true_iff in H as [-> H]. apply IH, H.
Qed.

Lemma isAsciiLetter_not_whitespace u : isAsciiLetter u = true -> isWhiteSpace u = false.
Proof.
  unfold isAsciiLetter, isWhiteSpace. intros H.
  apply orb_true_iff in H. rewrite !andb_true_iff, !N.leb_le in H.
  repeat (apply orb_false_iff; split);
    try apply andb_false_iff; rewrite ?N.eqb_neq, ?N.leb_gt; lia.
Qed.

Lemma trimStart_letters w s :
  forallb isAsciiLetter w = true -> w <> [] -> trimStart (w ++ s) = w ++ s.
Proof.
  destruct w as [|u w]; [congruence|]. simpl. intros H _.
  apply andb_true_iff in H as [H _].
  rewrite (isAsciiLetter_not_whitespace u H). reflexivity.
Qed.

(** Whitespace around a word of letters is trimmed away, and nothing else. *)
Lemma trim_padded ws1 w ws2 :
  forallb isWhiteSpace ws1 = true -> forallb isWhiteSpace ws2 = true ->
  forallb isAsciiLetter w = true -> w <> [] ->
  trim (ws1 ++ w ++ ws2) = w.
Proof.
  intros H1 H2 Hw Hne. unfold trim, trimEnd.
  rewrite (trimStart_whitespace ws1 _ H1), (trimStart_letters w ws2 Hw Hne).
  rewrite rev_app_distr, trimStart_whitespace.
  - rewrite <- (app_nil_r (rev w)), trimStart_letters.
    + rewrite app_nil_r. apply rev_involutive.
    + rewrite forallb_forall in *. intros u Hu. apply Hw, in_rev, Hu.
    + intros E. apply Hne. rewrite <- (rev_involutive w), E. reflexivity.
  - rewrite forallb_forall in *. intros u Hu. apply H2, in_rev, Hu.
Qed.

Lemma codePoints_ascii s :
  forallb (fun u => u <? 128)%N s = true -> codePoints s = s.
Proof.
  induction s as [|h r IH]; [reflexivity|].
  intros H. cbn [forallb] in H. apply andb_true_iff in H as [Hh Hr].
  apply N.ltb_lt in Hh. specialize (IH Hr).
  assert (isLeadingSurrogate h = false) as Hl.
  { unfold isLeadingSurrogate. apply andb_false_iff. left. apply N.leb_gt. lia. }
  destruct r as [|l r']; [reflexivity|].
  change (codePoints (h :: l :: r'))
    with (if isLeadingSurrogate h && isTrailingSurrogate l
          then (65536 + (h - 55296) * 1024 + (l - 56320))%N :: codePoints r'
          else h :: codePoints (l :: r')).
  rewrite Hl, IH. reflexivity.
Qed.

(** On ASCII text [toUpperCase] is [asciiUpper], unit by unit, whatever the
    table says elsewhere. *)
Lemma toUpperCase_ascii s :
  forallb (fun u => u <? 128)%N s = true ->
  toUpperCase unicodeUpper s = map asciiUpper s.
Proof.
  intros H. unfold toUpperCase. rewrite (codePoints_ascii s H).
  induction s as [|u s IH]; [reflexivity|].
  cbn [forallb] in H. apply andb_true_iff in H as [Hu Hs].
  cbn [flat_map map]. unfold upperCodePoint at 1. rewrite Hu.
  cbn [app flat_map]. rewrite (IH Hs).
  unfold codeUnits. apply N.ltb_lt in Hu.
  assert ((asciiUpper u <? 65536)%N = true) as ->; [|reflexivity].
  apply N.ltb_lt. unfold asciiUpper. destruct (_ && _); lia.
Qed.

Lemma isAsciiLetter_ascii u : isAsciiLetter u = true -> (u <? 128)%N = true.
Proof.
  unfold isAsciiLetter. intros H. apply orb_true_iff in H.
  rewrite !andb_true_iff, !N.leb_le in H. apply N.ltb_lt. lia.
Qed.

(** A unit that upper-cases to a capital letter is a letter. *)
Lemma asciiUpper_capital u :
  (65 <=? asciiUpper u)%N && (asciiUpper u <=? 90)%N = true -> isAsciiLetter u = true.
Proof.
  unfold asciiUpper, isAsciiLetter. destruct ((97 <=? u)%N && (u <=? 122)%N) eqn:E.
  - intros _. apply orb_true_r.
  - intros H. rewrite H. reflexivity.
Qed.

Lemma spelling_letters w p :
  map asciiUpper w = labelText p -> forallb isAsciiLetter w = true /\ w <> [].
Proof.
  intros H. split.
  - assert (forallb (fun v => (65 <=? v)%N && (v <=? 90)%N) (map asciiUpper w) = true)
      as Hc by (rewrite H; destruct p; reflexivity).
    clear H. induction w as [|u w IH]; [reflexivity|].
    cbn [map forallb] in *. apply andb_true_iff in Hc as [Hu Hc].
    rewrite (asciiUpper_capital u Hu), (IH Hc). reflexivity.
  - intros ->. destruct p; discriminate H.
Qed.

(** Any spelling of a label in upper or lower case letters, with any
    whitespace around it, normalizes to the label. *)
Lemma normalize_spelling ws1 w ws2 p :
  forallb isWhiteSpace ws1 = true -> forallb isWhiteSpace ws2 = true ->
  map asciiUpper w = labelText p ->
  norm (ws1 ++ w ++ ws2) = labelText p.
Proof.
  intros H1 H2 Hw. destruct (spelling_letters w p Hw) as [Hl Hne].
  unfold normalize. rewrite (trim_padded ws1 w ws2 H1 H2 Hl Hne).
  rewrite toUpperCase_ascii; [exact Hw|].
  rewrite forallb_forall in *. intros u Hu. apply isAsciiLetter_ascii, Hl, Hu.
Qed.

Lemma normalize_padded_up : norm (lit " up ") = labelText UP.
Proof. reflexivity. Qed.

Lemma normalize_lower_down : norm (lit "down") = labelText DOWN.
Proof. reflexivity. Qed.

(** C10.  The text of a fulfilled response is trimmed, then upper-cased, and
    only then compared: when the result is the text of a label the adapter
    returns that label, and when it is the text of no label the adapter
    returns [NEUTRAL].  So a label spelled in letters of either case, with
    any whitespace around it, is returned: [" up "] gives [UP] and ["down"]
    gives [DOWN]. *)
Theorem adapter_normalizes (img : string) (ex : Exercise)
    (r : GenerateContentResponse) (t : jsstring) :
  generateContent (request img ex) = Fulfilled r -> text r = Some t ->
  (forall p, norm t = labelText p -> adapter img ex = Fulfilled (labelText p))
  /\ ((forall p, norm t <> labelText p) ->
      adapter img ex = Fulfilled (labelText NEUTRAL))
  /\ (forall ws1 w ws2 p,
        forallb isWhiteSpace ws1 = true -> forallb isWhiteSpace ws2 = true ->
        map asciiUpper w = labelText p -> t = ws1 ++ w ++ ws2 ->
        adapter img ex = Fulfilled (labelText p))
  /\ (t = lit " up " -> adapter img ex = Fulfilled (labelText UP))
  /\ (t = lit "down" -> adapter img ex = Fulfilled (labelText DOWN)).
Proof.
  intros H Ht. split; [|split; [|split; [|split]]].
  - intros p Hp. eapply adapter_recognized; eauto.
  - intros Hp. eapply adapter_unrecognized; eauto.
  - intros ws1 w ws2 p H1 H2 Hw ->.
    eapply adapter_recognized; eauto using normalize_spelling.
  - intros ->. eapply adapter_recognized; eauto using normalize_padded_up.
  - intros ->. eapply adapter_recognized; eauto using normalize_lower_down.
Qed.

End AdapterFacts.

Lemma adapter_never_rejects_witness :
  Gemini.analyzeFrame (fun cp => [cp])
    (fun _ => Gemini.Rejected (Gemini.ApiError "503")) "frame" Squats
  = Gemini.Fulfilled (Gemini.labelText NEUTRAL).
Proof.
  apply (proj1 (proj2 (adapter_never_rejects (fun cp => [cp])
           (fun _ => Gemini.Rejected (Gemini.ApiError "503")) "frame" Squats))
         (Gemini.ApiError "503")).
  reflexivity.
Defined.

Lemma adapter_normalizes_witness :
  Gemini.analyzeFrame (fun cp => [cp])
    (fun _ => Gemini.Fulfilled {| Gemini.text := Some (JS.lit " up ") |}) "frame" Squats
  = Gemini.Fulfilled (Gemini.labelText UP).
Proof.
  apply (proj1 (adapter_normalizes (fun cp => [cp])
           (fun _ => Gemini.Fulfilled {| Gemini.text := Some (JS.lit " up ") |})
           "frame" Squats {| Gemini.text := Some (JS.lit " up ") |} (JS.lit " up ")
           eq_refl eq_refl) UP).
  reflexivity.
Defined.

(** ** The component *)
Section AppFacts.
Import App.

Lemma resume_repCount position s :
  repCount (analyzeFrame_resume position s) =
  if negb (repStateCooldown s) && bool_decide (lastPosition s = DOWN)
     && bool_decide (position = UP)
  then repCount s + 1 else repCount s.
Proof.
  unfold analyzeFrame_resume. cbn. destruct (repStateCooldown s); cbn; [reflexivity|].
  destruct (bool_decide (lastPosition s = DOWN) && bool_decide (position = UP));
    reflexivity.
Qed.

Lemma resume_lastPosition position s :
  lastPosition (analyzeFrame_resume position s) =
  if repStateCooldown s then lastPosition s else position.
Proof.
  unfold analyzeFrame_resume. cbn. destruct (repStateCooldown s); reflexivity.
Qed.

Lemma resume_selectedExercise position s :
  selectedExercise (analyzeFrame_resume position s) = selectedExercise s.
Proof.
  unfold analyzeFrame_resume. cbn. destruct (repStateCooldown s); cbn; [reflexivity|].
  destruct (bool_decide (lastPosition s = DOWN) && bool_decide (position = UP));
    reflexivity.
Qed.

Lemma edge_test position s :
  negb (repStateCooldown s) && bool_decide (lastPosition s = DOWN)
    && bool_decide (position = UP) = true
  <-> countedEdge position s.
Proof.
  unfold countedEdge.
  rewrite !andb_true_iff, negb_true_iff, !bool_decide_eq_true. tauto.
Qed.

Lemma resume_counts position s :
  (repCount (analyzeFrame_resume position s) = repCount s + 1
   <-> countedEdge position s)
  /\ (repCount (analyzeFrame_resume position s) = repCount s
      <-> ~ countedEdge position s).
Proof.
  rewrite resume_repCount, <- edge_test.
  destruct (negb _ && _ && _); split; split; intros; try lia; try easy.
Qed.

(** C1.  The sample-processing transition adds exactly one to [repCount] if
    and only if, when the label arrives, [lastPosition] is [DOWN], the label
    is [UP] and the cooldown flag is off; in every other case it leaves
    [repCount] as it was.  The same holds of a whole call of [analyzeFrame]
    that nothing interleaves with, for the state it is entered in; a call
    that produces no label counts nothing. *)
Theorem analyzeFrame_counts_down_up_edge :
  (forall position s,
     (repCount (analyzeFrame_resume position s) = repCount s + 1
      <-> lastPosition s = DOWN /\ position = UP /\ repStateCooldown s = false)
     /\ (repCount (analyzeFrame_resume position s) = repCount s
         <-> ~ (lastPosition s = DOWN /\ position = UP /\ repStateCooldown s = false)))
  /\ (forall classify captured src s,
     (repCount (App.analyzeFrame classify captured src s) = repCount s + 1
      <-> lastPosition s = DOWN /\ tickLabel classify captured src = Some UP
          /\ repStateCooldown s = false)
     /\ (repCount (App.analyzeFrame classify captured src s) = repCount s
         <-> ~ (lastPosition s = DOWN /\ tickLabel classify captured src = Some UP
                /\ repStateCooldown s = false))).
Proof.
  split.
  - intros position s. apply resume_counts.
  - intros classify captured src s. unfold App.analyzeFrame, tickLabel.
    destruct (capture captured src) as [[img exercise]|].
    + pose proof (resume_counts (classify img exercise)
                    (setFeedbackMessage "در حال تحلیل..." s)) as [H1 H2].
      unfold countedEdge in H1, H2. cbn in H1, H2.
      assert (Some (classify img exercise) = Some UP <-> classify img exercise = UP)
        as -> by (split; congruence).
      exact (conj H1 H2).
    + split; split; intros H; try lia; try reflexivity.
      * destruct H as (_ & H & _); discriminate H.
      * intros (_ & H' & _); discriminate H'.
Qed.

(** C2, as the code has it.  While the cooldown flag is on, the transition
    stops at the guard of line 95: neither [lastPosition] nor [repCount]
    changes.  With the flag off, [lastPosition] becomes the label. *)
Theorem analyzeFrame_lastPosition position s :
  lastPosition (analyzeFrame_resume position s) =
    (if repStateCooldown s then lastPosition s else position)
  /\ (if repStateCooldown s
      then repCount (analyzeFrame_resume position s) = repCount s
      else True).
Proof.
  split; [apply resume_lastPosition|].
  rewrite resume_repCount. destruct (repStateCooldown s); [reflexivity|exact I].
Qed.

(** *** The handlers, field by field *)

Lemma stopCounting_timers s :
  timers (stopCounting s) =
  match analysisIntervalRef s with
  | Some id => delete id (timers s)
  | None => timers s
  end.
Proof. unfold stopCounting. cbn. destruct (analysisIntervalRef s); reflexivity. Qed.

Lemma stopCounting_frame s :
  isCounting (stopCounting s) = false
  /\ repCount (stopCounting s) = repCount s
  /\ lastPosition (stopCounting s) = lastPosition s
  /\ repStateCooldown (stopCounting s) = repStateCooldown s
  /\ selectedExercise (stopCounting s) = selectedExercise s
  /\ analysisIntervalRef (stopCounting s) = analysisIntervalRef s
  /\ nextTimer (stopCounting s) = nextTimer s
  /\ pending (stopCounting s) = pending s.
Proof.
  unfold stopCounting. cbn.
  destruct (analysisIntervalRef s) eqn:E; cbn; repeat split; exact E.
Qed.

Lemma resetCounter_frame s :
  isCounting (resetCounter s) = false
  /\ repCount (resetCounter s) = 0
  /\ lastPosition (resetCounter s) = NEUTRAL
  /\ repStateCooldown (resetCounter s) = repStateCooldown s
  /\ selectedExercise (resetCounter s) = selectedExercise s
  /\ analysisIntervalRef (resetCounter s) = analysisIntervalRef s
  /\ nextTimer (resetCounter s) = nextTimer s
  /\ pending (resetCounter s) = pending s
  /\ timers (resetCounter s) = timers (stopCounting s).
Proof.
  unfold resetCounter. cbn. destruct (stopCounting_frame s) as (?&?&?&?&?&?&?&?).
  repeat split; assumption.
Qed.

Lemma handleSelectExercise_frame exercise s :
  isCounting (handleSelectExercise exercise s) = false
  /\ repCount (handleSelectExercise exercise s) = 0
  /\ lastPosition (handleSelectExercise exercise s) = NEUTRAL
  /\ repStateCooldown (handleSelectExercise exercise s) = repStateCooldown s
  /\ selectedExercise (handleSelectExercise exercise s) = Some exercise
  /\ analysisIntervalRef (handleSelectExercise exercise s) = analysisIntervalRef s
  /\ nextTimer (handleSelectExercise exercise s) = nextTimer s
  /\ pending (handleSelectExercise exercise s) = pending s
  /\ timers (handleSelectExercise exercise s) = timers (stopCounting s).
Proof.
  unfold handleSelectExercise. cbn.
  destruct (resetCounter_frame s) as (?&?&?&?&?&?&?&?&?).
  repeat split; assumption.
Qed.

(** Clearing the interval the ref holds stops the sampling, provided no
    other interval is active. *)
Lemma stopCounting_stops s :
  (forall id captured, timers s !! id = Some (AnalysisInterval captured) ->
     analysisIntervalRef s = Some id) ->
  samplingStopped (stopCounting s).
Proof.
  intros Hs id captured. rewrite stopCounting_timers.
  destruct (analysisIntervalRef s) as [i|] eqn:Hi.
  - intros H. apply lookup_delete_Some in H as [Hne H].
    apply Hs in H. congruence.
  - intros H. apply Hs in H. discriminate H.
Qed.

(** What the sample-processing transition does to the rest of the state:
    on a counted edge it registers the cooldown timeout, otherwise only the
    feedback and [lastPosition] can change. *)
Lemma resume_shape position s :
  isCounting (analyzeFrame_resume position s) = isCounting s
  /\ analysisIntervalRef (analyzeFrame_resume position s) = analysisIntervalRef s
  /\ pending (analyzeFrame_resume position s) = pending s
  /\ ((countedEdge position s
       /\ timers (analyzeFrame_resume position s)
          = <[nextTimer s := CooldownTimeout]> (timers s)
       /\ nextTimer (analyzeFrame_resume position s) = Pos.succ (nextTimer s)
       /\ repStateCooldown (analyzeFrame_resume position s) = true)
      \/ (~ countedEdge position s
          /\ timers (analyzeFrame_resume position s) = timers s
          /\ nextTimer (analyzeFrame_resume position s) = nextTimer s
          /\ repStateCooldown (analyzeFrame_resume position s) = repStateCooldown s)).
Proof.
  unfold analyzeFrame_resume, countedEdge. cbn.
  destruct (repStateCooldown s) eqn:Hc; cbn.
  - repeat split. right. repeat split; try assumption. intros (_ & _ & H); discriminate H.
  - destruct (bool_decide (lastPosition s = DOWN)) eqn:Hl;
      destruct (bool_decide (position = UP)) eqn:Hp; cbn; repeat split;
      try (apply bool_decide_eq_true in Hl); try (apply bool_decide_eq_true in Hp);
      try (apply bool_decide_eq_false in Hl); try (apply bool_decide_eq_false in Hp).
    + left. repeat split; assumption.
    + right. repeat split; try assumption. tauto.
    + right. repeat split; try assumption. tauto.
    + right. repeat split; try assumption. tauto.
Qed.

Lemma begin_frame captured src s :
  isCounting (analyzeFrame_begin captured src s) = isCounting s
  /\ repCount (analyzeFrame_begin captured src s) = repCount s
  /\ lastPosition (analyzeFrame_begin captured src s) = lastPosition s
  /\ repStateCooldown (analyzeFrame_begin captured src s) = repStateCooldown s
  /\ selectedExercise (analyzeFrame_begin captured src s) = selectedExercise s
  /\ analysisIntervalRef (analyzeFrame_begin captured src s) = analysisIntervalRef s
  /\ nextTimer (analyzeFrame_begin captured src s) = nextTimer s
  /\ timers (analyzeFrame_begin captured src s) = timers s.
Proof.
  unfold analyzeFrame_begin. destruct (capture captured src); cbn; repeat split.
Qed.

(** *** Reachable states *)

Lemma invariant_initial : invariant initial.
Proof.
  unfold invariant, intervalsTracked, handlesFresh. cbn.
  split; [|split; [|split]].
  - intros id captured H. rewrite lookup_empty in H. discriminate H.
  - intros id H. rewrite lookup_empty in H. destruct H as [? H]. discriminate H.
  - discriminate.
  - lia.
Qed.

Lemma invariant_stopped s s' :
  invariant s ->
  timers s' = timers (stopCounting s) ->
  isCounting s' = false -> nextTimer s' = nextTimer s -> 0 <= repCount s' ->
  invariant s'.
Proof.
  intros (Ht & Hf & _ & _) Htm Hc Hn Hr. unfold invariant.
  split; [|split; [|split]].
  - intros id captured H. exfalso. rewrite Htm in H.
    eapply stopCounting_stops; [|exact H]. intros i k Hi. apply (Ht i k Hi).
  - intros id. rewrite Htm, Hn, stopCounting_timers.
    destruct (analysisIntervalRef s).
    + rewrite lookup_delete_is_Some. intros [_ H]. apply Hf, H.
    + apply Hf.
  - rewrite Hc. discriminate.
  - exact Hr.
Qed.

Lemma invariant_step e s : invariant s -> enabled e s = true -> invariant (step e s).
Proof.
  intros Hinv He. pose proof Hinv as (Ht & Hf & Hsel & Hr).
  destruct e as [o| | | |exercise|id src|i position]; cbn [step].
  - (* the camera settles *)
    destruct o as [[]| |]; exact Hinv.
  - (* start *)
    cbn in He. apply andb_true_iff in He as [He _].
    apply andb_true_iff in He as [Hc Hs].
    apply negb_true_iff in Hc. apply bool_decide_eq_true in Hs.
    unfold startCounting. destruct (selectedExercise s) as [ex|] eqn:Hex; [|congruence].
    unfold invariant, intervalsTracked, handlesFresh. cbn. rewrite Hex.
    split; [|split; [|split]].
    + intros id captured H.
      apply lookup_insert_Some in H as [[-> _] | [_ H]]; [split; reflexivity|].
      apply Ht in H as [_ H]. congruence.
    + intros id. rewrite lookup_insert_is_Some. intros [<- | [_ H]]; [lia|].
      apply Hf in H. lia.
    + discriminate.
    + exact Hr.
  - (* stop *)
    destruct (stopCounting_frame s) as (?&Hrc&?&?&?&?&?&?).
    apply (invariant_stopped s); auto. rewrite Hrc. exact Hr.
  - (* reset *)
    destruct (resetCounter_frame s) as (?&Hrc&?&?&?&?&?&?&?).
    apply (invariant_stopped s); auto. rewrite Hrc. lia.
  - (* select *)
    destruct (handleSelectExercise_frame exercise s) as (?&Hrc&?&?&?&?&?&?&?).
    apply (invariant_stopped s); auto. rewrite Hrc. lia.
  - (* a timer fires *)
    destruct (timers s !! id) as [[captured|]|] eqn:Hid; [| |exact Hinv].
    + destruct (begin_frame captured src s) as (Hc&Hrc&_&_&Hse&Hre&Hn&Htm).
      unfold invariant, intervalsTracked, handlesFresh.
      rewrite Hc, Hrc, Hse, Hre, Hn, Htm. exact Hinv.
    + unfold invariant, intervalsTracked, handlesFresh. cbn.
      split; [|split; [|split]].
      * intros j k H. apply lookup_delete_Some in H as [_ H]. apply (Ht _ _ H).
      * intros j. rewrite lookup_delete_is_Some. intros [_ H]. apply Hf, H.
      * exact Hsel.
      * exact Hr.
  - (* a classification resolves *)
    destruct (pending s !! i) as [req|] eqn:Hi; [|exact Hinv].
    set (s0 := set_pending (delete i) s).
    destruct (resume_shape position s0) as (Hc & Hre & _ & Hcase).
    pose proof (resume_repCount position s0) as Hrc.
    pose proof (resume_selectedExercise position s0) as Hse.
    unfold invariant, intervalsTracked, handlesFresh.
    rewrite Hc, Hre, Hse. cbn [s0 set_pending isCounting analysisIntervalRef selectedExercise].
    destruct Hcase as [(_ & Htm & Hn & _) | (_ & Htm & Hn & _)]; rewrite Htm, Hn;
      cbn [s0 set_pending timers nextTimer].
    + split; [|split; [|split]].
      * intros j k H.
        apply lookup_insert_Some in H as [[_ H] | [_ H]]; [discriminate H|].
        apply (Ht _ _ H).
      * intros j. rewrite lookup_insert_is_Some. intros [<- | [_ H]]; [lia|].
        apply Hf in H. lia.
      * exact Hsel.
      * rewrite Hrc. cbn [s0 set_pending repCount lastPosition repStateCooldown].
        destruct (_ && _); lia.
    + split; [exact Ht|split; [exact Hf|split; [exact Hsel|]]].
      rewrite Hrc. cbn [s0 set_pending repCount lastPosition repStateCooldown].
      destruct (_ && _); lia.
Qed.

Lemma Reachable_invariant s : Reachable s -> invariant s.
Proof.
  induction 1 as [|e s _ IH He]; [apply invariant_initial|].
  apply invariant_step; assumption.
Qed.

Lemma Reachable_run es s :
  Reachable s -> admissible es s = true -> Reachable (run es s).
Proof.
  revert s. induction es as [|e es IH]; intros s Hs Ha; [exact Hs|].
  cbn in Ha. apply andb_true_iff in Ha as [He Ha].
  cbn. apply IH; [|exact Ha]. apply Reachable_step; assumption.
Qed.

Lemma Reachable_stop_stops s : Reachable s -> samplingStopped (stopCounting s).
Proof.
  intros Hs. apply Reachable_invariant in Hs as (Ht & _).
  apply stopCounting_stops. intros id captured H. apply (Ht _ _ H).
Qed.

(** *** The cooldown guard *)

(** C2 fails on the code: right after a counted repetition the cooldown flag
    is on, the next classification resolves to [DOWN], and [lastPosition]
    stays [UP]. *)
Lemma cooldown_blocks_lastPosition :
  Reachable Session.afterCountInFlight
  /\ repStateCooldown Session.afterCountInFlight = true
  /\ lastPosition (step (ClassificationResolves 0 DOWN) Session.afterCountInFlight)
     <> DOWN
  /\ lastPosition (analyzeFrame_resume DOWN Session.afterCountInFlight) <> DOWN.
Proof.
  split; [|split; [|split]].
  - apply Reachable_run; [apply Reachable_initial|reflexivity].
  - reflexivity.
  - discriminate.
  - discriminate.
Qed.

(** *** reset and selection *)

(** C3 fails on the code: a reset right after a counted repetition leaves the
    cooldown flag on. *)
Lemma resetCounter_keeps_cooldown_on :
  Reachable Session.afterCount
  /\ enabled Reset Session.afterCount = true
  /\ repStateCooldown (resetCounter Session.afterCount) <> false.
Proof.
  split; [|split].
  - apply Reachable_run; [apply Reachable_initial|reflexivity].
  - reflexivity.
  - discriminate.
Qed.

(** C3, as the code has it.  Whatever the state before, after [resetCounter]
    the count is 0, [lastPosition] is [NEUTRAL] and the component is not
    counting; the cooldown flag is as it was, so it is off afterwards exactly
    when it was off before. *)
Theorem resetCounter_zeroes s :
  repCount (resetCounter s) = 0
  /\ lastPosition (resetCounter s) = NEUTRAL
  /\ isCounting (resetCounter s) = false
  /\ repStateCooldown (resetCounter s) = repStateCooldown s.
Proof. destruct (resetCounter_frame s) as (?&?&?&?&_). repeat split; assumption. Qed.

(** C4 fails on the code: selecting an exercise right after a counted
    repetition and a pause leaves the cooldown flag on. *)
Lemma handleSelectExercise_keeps_cooldown_on :
  Reachable Session.afterCountPaused
  /\ enabled (Select Pushups) Session.afterCountPaused = true
  /\ 0 < repCount Session.afterCountPaused
  /\ repStateCooldown (handleSelectExercise Pushups Session.afterCountPaused) <> false.
Proof.
  split; [|split; [|split]].
  - apply Reachable_run; [apply Reachable_initial|reflexivity].
  - reflexivity.
  - reflexivity.
  - discriminate.
Qed.

(** C4, as the code has it.  Whatever the state before,
    [handleSelectExercise kind] leaves the component not counting, with the
    interval of [analysisIntervalRef] cleared, the count at 0 (also when it
    was positive), [lastPosition] at [NEUTRAL] and [kind] selected; the
    cooldown flag is as it was.  In a state the page can reach no analysis
    interval remains, so the sampling has stopped. *)
Theorem handleSelectExercise_resets kind s :
  isCounting (handleSelectExercise kind s) = false
  /\ timers (handleSelectExercise kind s) =
       match analysisIntervalRef s with
       | Some id => delete id (timers s)
       | None => timers s
       end
  /\ repCount (handleSelectExercise kind s) = 0
  /\ lastPosition (handleSelectExercise kind s) = NEUTRAL
  /\ selectedExercise (handleSelectExercise kind s) = Some kind
  /\ repStateCooldown (handleSelectExercise kind s) = repStateCooldown s
  /\ (Reachable s -> samplingStopped (handleSelectExercise kind s)).
Proof.
  destruct (handleSelectExercise_frame kind s) as (?&?&?&?&?&_&_&_&Htm).
  repeat split; try assumption.
  - rewrite Htm. apply stopCounting_timers.
  - intros Hs id captured. rewrite Htm. apply (Reachable_stop_stops s Hs).
Qed.

Lemma handleSelectExercise_resets_witness :
  samplingStopped (handleSelectExercise Pushups Session.afterCountPaused).
Proof.
  apply (handleSelectExercise_resets Pushups Session.afterCountPaused).
  apply Reachable_run; [apply Reachable_initial|reflexivity].
Defined.

(** C9.  [resetCounter] leaves the selected exercise as it was, and so does
    every event other than a selection. *)
Theorem resetCounter_keeps_selection :
  (forall s, selectedExercise (resetCounter s) = selectedExercise s)
  /\ (forall e s,
       match e with
       | Select kind => selectedExercise (step e s) = Some kind
       | _ => selectedExercise (step e s) = selectedExercise s
       end).
Proof.
  split.
  - intros s. apply resetCounter_frame.
  - intros [o| | | |exercise|id src|i position] s; cbn [step].
    + destruct o as [[]| |]; reflexivity.
    + unfold startCounting. destruct (selectedExercise s) eqn:E; cbn; congruence.
    + apply stopCounting_frame.
    + apply resetCounter_frame.
    + apply handleSelectExercise_frame.
    + destruct (timers s !! id) as [[captured|]|]; try reflexivity.
      apply begin_frame.
    + destruct (pending s !! i); [|reflexivity].
      rewrite resume_selectedExercise. reflexivity.
Qed.

(** *** start without a selection *)

(** C6.  With no exercise selected, [startCounting] only replaces the
    feedback message: [isCounting] keeps its value (false stays false, and
    it is false in every reachable state without a selection), no timer is
    registered, and the count, [lastPosition] and the ref are untouched. *)
Theorem startCounting_without_exercise s :
  selectedExercise s = None ->
  startCounting s = setFeedbackMessage "لطفا ابتدا یک حرکت ورزشی را انتخاب کنید!" s
  /\ isCounting (startCounting s) = isCounting s
  /\ timers (startCounting s) = timers s
  /\ nextTimer (startCounting s) = nextTimer s
  /\ analysisIntervalRef (startCounting s) = analysisIntervalRef s
  /\ repCount (startCounting s) = repCount s
  /\ lastPosition (startCounting s) = lastPosition s
  /\ repStateCooldown (startCounting s) = repStateCooldown s
  /\ selectedExercise (startCounting s) = None
  /\ (Reachable s -> isCounting (startCounting s) = false).
Proof.
  intros Hsel. unfold startCounting. rewrite Hsel. cbn. repeat split.
  - exact Hsel.
  - intros Hs. apply Reachable_invariant in Hs as (_ & _ & Hc & _).
    destruct (isCounting s); [|reflexivity]. destruct (Hc eq_refl Hsel).
Qed.

Lemma startCounting_without_exercise_witness :
  isCounting (startCounting initial) = false
  /\ timers (startCounting initial) = ∅
  /\ repCount (startCounting initial) = 0
  /\ lastPosition (startCounting initial) = NEUTRAL.
Proof.
  destruct (startCounting_without_exercise initial eq_refl)
    as (_ & Hc & Ht & _ & _ & Hr & Hl & _).
  repeat split; assumption.
Defined.

(** *** The count over a session *)

Lemma step_repCount e s :
  resets e = false ->
  repCount (step e s) = repCount s \/ repCount (step e s) = repCount s + 1.
Proof.
  intros He. destruct e as [o| | | |exercise|id src|i position];
    try discriminate He; cbn [step].
  - left. destruct o as [[]| |]; reflexivity.
  - left. unfold startCounting. destruct (selectedExercise s); reflexivity.
  - left. apply stopCounting_frame.
  - left. destruct (timers s !! id) as [[captured|]|]; try reflexivity.
    apply begin_frame.
  - destruct (pending s !! i); [|left; reflexivity].
    rewrite resume_repCount. cbn. destruct (_ && _); [right|left]; reflexivity.
Qed.

Lemma run_repCount es s :
  forallb (fun e => negb (resets e)) es = true -> repCount s <= repCount (run es s).
Proof.
  revert s. induction es as [|e es IH]; intros s Hes; cbn in *; [lia|].
  apply andb_true_iff in Hes as [He Hes]. apply negb_true_iff in He.
  specialize (IH (step e s) Hes). destruct (step_repCount e s He); unfold run in IH; lia.
Qed.

(** C7.  An event that is neither a reset nor a selection (a tick, a
    classification resolving, a start, a stop, a timeout) leaves [repCount]
    as it was or adds 1 to it, and over any sequence of such events
    [repCount] does not decrease. *)
Theorem repCount_monotone :
  (forall e s, resets e = false ->
     repCount (step e s) = repCount s \/ repCount (step e s) = repCount s + 1)
  /\ (forall es s, forallb (fun e => negb (resets e)) es = true ->
       repCount s <= repCount (run es s)).
Proof. split; [apply step_repCount|apply run_repCount]. Qed.

Lemma repCount_monotone_witness :
  repCount (run Session.started initial)
  <= repCount (run [TimerFires 1 Session.frame; ClassificationResolves 0 DOWN;
                    TimerFires 1 Session.frame; ClassificationResolves 0 UP]
                 (run Session.started initial)).
Proof.
  apply (proj2 repCount_monotone
           [TimerFires 1 Session.frame; ClassificationResolves 0 DOWN;
            TimerFires 1 Session.frame; ClassificationResolves 0 UP]
           (run Session.started initial)).
  reflexivity.
Defined.

(** *** A result that arrives after a stop *)

(** C8 fails on the code: counting is stopped while a request is in flight,
    the request then resolves to [UP], and the count goes from 0 to 1 and
    [lastPosition] from [DOWN] to [UP]. *)
Lemma stale_result_counts :
  Reachable Session.requestInFlight
  /\ enabled Stop Session.requestInFlight = true
  /\ pending (stopCounting Session.requestInFlight) = [("/9j/4AAQSkZJRg"%string, Squats)]
  /\ samplingStopped (stopCounting Session.requestInFlight)
  /\ repCount (step (ClassificationResolves 0 UP) (stopCounting Session.requestInFlight))
     <> repCount (stopCounting Session.requestInFlight)
  /\ lastPosition (step (ClassificationResolves 0 UP) (stopCounting Session.requestInFlight))
     <> lastPosition (stopCounting Session.requestInFlight).
Proof.
  assert (Reachable Session.requestInFlight) as Hs
    by (apply Reachable_run; [apply Reachable_initial|reflexivity]).
  split; [exact Hs|]. split; [reflexivity|]. split; [reflexivity|].
  split; [apply Reachable_stop_stops, Hs|]. split; discriminate.
Qed.

(** C8, as the code has it.  [stopCounting] and [resetCounter] clear the
    analysis interval at once (in a reachable state none remains), but they
    leave the requests in flight alone, and nothing guards the continuation:
    a result that resolves after a stop moves [repCount] and [lastPosition]
    exactly as it would have without the stop; after a reset it finds
    [lastPosition] at [NEUTRAL], so the count stays 0, and [lastPosition]
    becomes its label unless the cooldown flag is on. *)
Theorem stale_result_is_applied position s :
  (Reachable s ->
     samplingStopped (stopCounting s) /\ samplingStopped (resetCounter s))
  /\ pending (stopCounting s) = pending s
  /\ pending (resetCounter s) = pending s
  /\ repCount (analyzeFrame_resume position (stopCounting s))
     = repCount (analyzeFrame_resume position s)
  /\ lastPosition (analyzeFrame_resume position (stopCounting s))
     = lastPosition (analyzeFrame_resume position s)
  /\ repCount (analyzeFrame_resume position (resetCounter s)) = 0
  /\ lastPosition (analyzeFrame_resume position (resetCounter s))
     = (if repStateCooldown s then NEUTRAL else position).
Proof.
  destruct (stopCounting_frame s) as (_&Hrc&Hl&Hc&_&_&_&Hp).
  destruct (resetCounter_frame s) as (_&Hrc'&Hl'&Hc'&_&_&_&Hp'&Htm).
  split; [|split; [|split; [|split; [|split; [|split]]]]].
  - intros Hs. split; [apply Reachable_stop_stops, Hs|].
    intros id captured. rewrite Htm. apply (Reachable_stop_stops s Hs).
  - exact Hp.
  - exact Hp'.
  - rewrite !resume_repCount, Hrc, Hl, Hc. reflexivity.
  - rewrite !resume_lastPosition, Hl, Hc. reflexivity.
  - rewrite resume_repCount, Hrc', Hl', Hc'. cbn.
    rewrite andb_false_r. reflexivity.
  - rewrite resume_lastPosition, Hl', Hc'. reflexivity.
Qed.

Lemma stale_result_is_applied_witness :
  samplingStopped (stopCounting Session.requestInFlight)
  /\ samplingStopped (resetCounter Session.requestInFlight).
Proof.
  apply (stale_result_is_applied UP Session.requestInFlight).
  apply Reachable_run; [apply Reachable_initial|reflexivity].
Defined.

(** *** The scenarios of the specification *)

Lemma scenario_down_up :
  repCount (run Session.counted initial) = 1.
Proof. reflexivity. Qed.

(** A second [UP] inside the cooldown window is not counted. *)
Lemma scenario_down_up_up :
  repCount (run (Session.countedThenInFlight ++ [ClassificationResolves 0 UP]) initial) = 1.
Proof. reflexivity. Qed.

(** [NEUTRAL, UP, DOWN, UP] with the cooldown timeout firing in between:
    counted once, on the last [UP]. *)
Lemma scenario_neutral_up_down_up :
  let tick p := [TimerFires 1 Session.frame; ClassificationResolves 0 p] in
  map (fun es => repCount (run es (run Session.started initial)))
      [tick NEUTRAL; tick NEUTRAL ++ tick UP; tick NEUTRAL ++ tick UP ++ tick DOWN;
       tick NEUTRAL ++ tick UP ++ tick DOWN ++ tick UP]
  = [0; 0; 0; 1].
Proof. reflexivity. Qed.

End AppFacts.

(** ** More on the adapter: what it accepts and what it refuses *)
Section AdapterEdgeCases.
Import JS Gemini.

Variable unicodeUpper : N -> list N.

Local Notation "'adapter'" := (Gemini.analyzeFrame unicodeUpper).
Local Notation "'norm'" := (normalize unicodeUpper).

Lemma trimStart_blank s : forallb isWhiteSpace s = true -> trimStart s = [].
Proof.
  induction s as [|u s IH]; simpl; [reflexivity|].
  intros H. apply andb_true_iff in H as [-> H]. apply IH, H.
Qed.

Lemma trimStart_split s :
  exists ws, forallb isWhiteSpace ws = true /\ s = ws ++ trimStart s.
Proof.
  induction s as [|u s (ws & Hws & IH)]; [exists []; split; reflexivity|].
  simpl. destruct (isWhiteSpace u) eqn:Hu.
  - exists (u :: ws). simpl. rewrite Hu, Hws. split; [reflexivity|].
    f_equal. exact IH.
  - exists []. split; reflexivity.
Qed.

Lemma trimStart_app a b :
  trimStart (a ++ b) =
  if forallb isWhiteSpace a then trimStart b else trimStart a ++ b.
Proof.
  induction a as [|u a IH]; simpl; [reflexivity|].
  destruct (isWhiteSpace u); [exact IH|reflexivity].
Qed.

Lemma forallb_rev {A} (f : A -> bool) l : forallb f (rev l) = forallb f l.
Proof.
  induction l as [|x l IH]; [reflexivity|].
  simpl. rewrite forallb_app, IH. simpl. rewrite andb_true_r. apply andb_comm.
Qed.

Lemma trimEnd_whitespace s ws :
  forallb isWhiteSpace ws = true -> trimEnd (s ++ ws) = trimEnd s.
Proof.
  intros H. unfold trimEnd. rewrite rev_app_distr, trimStart_whitespace; [reflexivity|].
  rewrite forallb_rev. exact H.
Qed.

Lemma trimEnd_split s :
  exists ws, forallb isWhiteSpace ws = true /\ s = trimEnd s ++ ws.
Proof.
  destruct (trimStart_split (rev s)) as (ws & Hws & Hs).
  exists (rev ws). rewrite forallb_rev. split; [exact Hws|].
  unfold trimEnd. rewrite <- rev_app_distr, <- Hs. symmetry. apply rev_involutive.
Qed.

(** [trim] takes whitespace off both ends and nothing else. *)
Lemma trim_split s :
  exists ws1 ws2,
    forallb isWhiteSpace ws1 = true /\ forallb isWhiteSpace ws2 = true
    /\ s = ws1 ++ trim s ++ ws2.
Proof.
  destruct (trimStart_split s) as (ws1 & H1 & Hs).
  destruct (trimEnd_split (trimStart s)) as (ws2 & H2 & Hs').
  exists ws1, ws2. unfold trim. rewrite <- Hs', <- Hs. repeat split; assumption.
Qed.

Lemma trim_padding ws1 t ws2 :
  forallb isWhiteSpace ws1 = true -> forallb isWhiteSpace ws2 = true ->
  trim (ws1 ++ t ++ ws2) = trim t.
Proof.
  intros H1 H2. unfold trim.
  rewrite (trimStart_whitespace ws1 _ H1), trimStart_app.
  destruct (forallb isWhiteSpace t) eqn:Ht.
  - rewrite (trimStart_blank ws2 H2), (trimStart_blank t Ht). reflexivity.
  - apply trimEnd_whitespace, H2.
Qed.

Lemma trim_blank s : forallb isWhiteSpace s = true -> trim s = [].
Proof. intros H. unfold trim. rewrite (trimStart_blank s H). reflexivity. Qed.

(** On ASCII text, normalizing to a label is spelling it. *)
Lemma normalize_ascii_label t p :
  isAscii t = true -> (norm t = labelText p <-> spells (labelText p) t).
Proof.
  intros Ha. split.
  - intros Hn. destruct (trim_split t) as (ws1 & ws2 & H1 & H2 & Ht).
    exists ws1, (trim t), ws2. repeat split; try assumption.
    unfold normalize in Hn. rewrite toUpperCase_ascii in Hn; [exact Hn|].
    unfold isAscii in Ha. rewrite Ht, !forallb_app in Ha.
    apply andb_true_iff in Ha as [_ Ha]. apply andb_true_iff in Ha as [Ha _].
    exact Ha.
  - intros (ws1 & w & ws2 & H1 & H2 & Hw & ->). apply normalize_spelling; assumption.
Qed.

(** X1.  For a response whose text is ASCII, the adapter returns a label
    exactly when the text spells it (its letters in either case, whitespace
    around them and nothing else), and [NEUTRAL] also whenever the text
    spells no label at all. *)
Theorem adapter_ascii_characterization
    (generateContent : GenerateContentParameters -> Promise GenerateContentResponse)
    (img : string) (ex : Exercise) (r : GenerateContentResponse) (t : jsstring)
    (p : RepState) :
  generateContent (request img ex) = Fulfilled r -> text r = Some t ->
  isAscii t = true ->
  (adapter generateContent img ex = Fulfilled (labelText p)
   <-> spells (labelText p) t
       \/ (p = NEUTRAL /\ forall q, ~ spells (labelText q) t)).
Proof.
  intros H Ht Ha.
  destruct (str_eqb (norm t) (lit "UP") || str_eqb (norm t) (lit "DOWN")
            || str_eqb (norm t) (lit "NEUTRAL")) eqn:E.
  - apply recognized_iff in E as [q Hq].
    rewrite (adapter_recognized _ _ img ex r t q H Ht Hq). split.
    + intros [= Hpq]. apply labelText_inj in Hpq as <-.
      left. apply normalize_ascii_label; assumption.
    + intros [Hs | [_ Hno]].
      * apply normalize_ascii_label in Hs; [|exact Ha]. congruence.
      * destruct (Hno q). apply normalize_ascii_label; assumption.
  - assert (forall q, norm t <> labelText q) as Hno.
    { intros q Hq. assert (exists q, norm t = labelText q) as Hex by eauto.
      apply recognized_iff in Hex. congruence. }
    rewrite (adapter_unrecognized _ _ img ex r t H Ht Hno). split.
    + intros [= Hp]. apply labelText_inj in Hp as <-. right. split; [reflexivity|].
      intros q Hs. apply normalize_ascii_label in Hs; [|exact Ha]. apply (Hno q Hs).
    + intros [Hs | [-> _]]; [|reflexivity].
      apply normalize_ascii_label in Hs; [|exact Ha]. destruct (Hno p Hs).
Qed.

(** X2.  Whitespace added around the text of a response does not change
    what the adapter returns. *)
Theorem adapter_ignores_padding
    (gc1 gc2 : GenerateContentParameters -> Promise GenerateContentResponse)
    (img : string) (ex : Exercise) (r1 r2 : GenerateContentResponse)
    (t ws1 ws2 : jsstring) :
  gc1 (request img ex) = Fulfilled r1 -> text r1 = Some t ->
  gc2 (request img ex) = Fulfilled r2 -> text r2 = Some (ws1 ++ t ++ ws2) ->
  forallb isWhiteSpace ws1 = true -> forallb isWhiteSpace ws2 = true ->
  adapter gc2 img ex = adapter gc1 img ex.
Proof.
  intros H1 Ht1 H2 Ht2 Hw1 Hw2.
  rewrite !adapter_unfold, H1, H2, Ht1, Ht2.
  unfold normalize. rewrite (trim_padding ws1 t ws2 Hw1 Hw2). reflexivity.
Qed.

(** X3.  A response whose text is empty or only whitespace gives [NEUTRAL]. *)
Theorem adapter_blank_is_neutral
    (generateContent : GenerateContentParameters -> Promise GenerateContentResponse)
    (img : string) (ex : Exercise) (r : GenerateContentResponse) (t : jsstring) :
  generateContent (request img ex) = Fulfilled r -> text r = Some t ->
  forallb isWhiteSpace t = true ->
  adapter generateContent img ex = Fulfilled (labelText NEUTRAL).
Proof.
  intros H Ht Hw. apply (adapter_unrecognized _ _ img ex r t H Ht).
  intros p. unfold normalize. rewrite (trim_blank t Hw). destruct p; discriminate.
Qed.

End AdapterEdgeCases.

Lemma adapter_ascii_characterization_witness :
  Gemini.analyzeFrame (fun cp => [cp])
    (fun _ => Gemini.Fulfilled {| Gemini.text := Some (JS.lit "UP.") |}) "frame" Squats
  = Gemini.Fulfilled (Gemini.labelText NEUTRAL).
Proof.
  apply (adapter_ascii_characterization (fun cp => [cp])
           (fun _ => Gemini.Fulfilled {| Gemini.text := Some (JS.lit "UP.") |})
           "frame" Squats {| Gemini.text := Some (JS.lit "UP.") |} (JS.lit "UP.")
           NEUTRAL eq_refl eq_refl eq_refl).
  right. split; [reflexivity|].
  intros q Hs.
  apply (normalize_ascii_label (fun cp => [cp]) (JS.lit "UP.") q eq_refl) in Hs.
  destruct q; discriminate Hs.
Defined.

Lemma adapter_ignores_padding_witness :
  Gemini.analyzeFrame (fun cp => [cp])
    (fun _ => Gemini.Fulfilled {| Gemini.text := Some (JS.lit "  Down ") |}) "frame" Squats
  = Gemini.analyzeFrame (fun cp => [cp])
      (fun _ => Gemini.Fulfilled {| Gemini.text := Some (JS.lit "Down") |}) "frame" Squats.
Proof.
  apply (adapter_ignores_padding (fun cp => [cp])
           (fun _ => Gemini.Fulfilled {| Gemini.text := Some (JS.lit "Down") |})
           (fun _ => Gemini.Fulfilled {| Gemini.text := Some (JS.lit "  Down ") |})
           "frame" Squats
           {| Gemini.text := Some (JS.lit "Down") |}
           {| Gemini.text := Some (JS.lit "  Down ") |}
           (JS.lit "Down") (JS.lit "  ") (JS.lit " ")); reflexivity.
Defined.

Lemma adapter_blank_is_neutral_witness :
  Gemini.analyzeFrame (fun cp => [cp])
    (fun _ => Gemini.Fulfilled {| Gemini.text := Some (JS.lit "  ") |}) "frame" Squats
  = Gemini.Fulfilled (Gemini.labelText NEUTRAL).
Proof.
  apply (adapter_blank_is_neutral (fun cp => [cp])
           (fun _ => Gemini.Fulfilled {| Gemini.text := Some (JS.lit "  ") |})
           "frame" Squats {| Gemini.text := Some (JS.lit "  ") |} (JS.lit "  "));
    reflexivity.
Defined.

(** ** More on the component *)
Section AppInvariants.
Import App.

Ltac split_consistent := split; [|split; [|split; [|split; [|split]]]].

Lemma timersConsistent_initial : timersConsistent initial.
Proof.
  unfold timersConsistent. cbn. split_consistent; try discriminate.
  all: intros; rewrite ?lookup_empty in *; discriminate.
Qed.

(** A state that differs from a consistent one only in fields the timers do
    not depend on is consistent. *)
Lemma timersConsistent_same s s' :
  timersConsistent s ->
  timers s' = timers s -> nextTimer s' = nextTimer s ->
  analysisIntervalRef s' = analysisIntervalRef s ->
  isCounting s' = isCounting s -> selectedExercise s' = selectedExercise s ->
  repStateCooldown s' = repStateCooldown s ->
  timersConsistent s'.
Proof.
  unfold timersConsistent. intros H -> -> -> -> -> ->. exact H.
Qed.

(** After [stopCounting], and after anything that leaves the timers, the ref
    and the cooldown flag as [stopCounting] does. *)
Lemma timersConsistent_stopped s s' :
  timersConsistent s ->
  timers s' = timers (stopCounting s) -> nextTimer s' = nextTimer s ->
  analysisIntervalRef s' = analysisIntervalRef s ->
  isCounting s' = false -> repStateCooldown s' = repStateCooldown s ->
  timersConsistent s'.
Proof.
  intros (Hb & Hn & _ & Hon & Hoff & Hu) Htm Hnt Hre Hc Hcd.
  assert (forall id, timers s' !! id = Some CooldownTimeout <->
                     timers s !! id = Some CooldownTimeout) as Hsame.
  { intros id. rewrite Htm, stopCounting_timers.
    destruct (analysisIntervalRef s) as [r|] eqn:Hr; [|reflexivity].
    rewrite lookup_delete_Some. split; [tauto|].
    intros H. split; [|exact H]. intros <-. exact (Hn r eq_refl H). }
  unfold timersConsistent. rewrite Hnt, Hre, Hc, Hcd. split_consistent.
  - exact Hb.
  - intros id Hr H. apply Hsame in H. exact (Hn id Hr H).
  - discriminate.
  - intros H. destruct (Hon H) as [id Hid]. exists id. apply Hsame, Hid.
  - intros H id Hid. apply Hsame in Hid. exact (Hoff H id Hid).
  - intros i j Hi Hj. apply Hsame in Hi, Hj. exact (Hu i j Hi Hj).
Qed.

Lemma timersConsistent_step e s :
  invariant s -> timersConsistent s -> enabled e s = true ->
  timersConsistent (step e s).
Proof.
  intros (Ht & Hf & _ & _) Hcons He.
  pose proof Hcons as (Hb & Hn & Hci & Hon & Hoff & Hu).
  destruct e as [o| | | |exercise|id src|i position]; cbn [step].
  - (* the camera settles *)
    apply (timersConsistent_same s); [exact Hcons|..]; destruct o as [[]| |]; reflexivity.
  - (* start *)
    cbn in He. apply andb_true_iff in He as [He _].
    apply andb_true_iff in He as [Hc Hs].
    apply negb_true_iff in Hc. apply bool_decide_eq_true in Hs.
    unfold startCounting. destruct (selectedExercise s) as [ex|] eqn:Hex; [|congruence].
    assert (timers s !! nextTimer s = None) as Hfresh.
    { destruct (timers s !! nextTimer s) eqn:E; [|reflexivity].
      assert (is_Some (timers s !! nextTimer s)) as H by eauto.
      apply Hf in H. lia. }
    unfold timersConsistent. cbn. rewrite Hex. split_consistent.
    + intros id [= <-]. lia.
    + intros id [= <-]. rewrite lookup_insert_eq. discriminate.
    + intros _. exists (nextTimer s), ex. rewrite lookup_insert_eq. repeat split.
    + intros H. destruct (Hon H) as [id Hid]. exists id.
      rewrite lookup_insert_ne; [exact Hid|]. intros <-. congruence.
    + intros H id Hid. apply lookup_insert_Some in Hid as [[_ Hid] | [_ Hid]];
        [discriminate Hid|]. exact (Hoff H id Hid).
    + intros i j Hi Hj.
      apply lookup_insert_Some in Hi as [[_ Hi] | [_ Hi]]; [discriminate Hi|].
      apply lookup_insert_Some in Hj as [[_ Hj] | [_ Hj]]; [discriminate Hj|].
      exact (Hu i j Hi Hj).
  - (* stop *)
    destruct (stopCounting_frame s) as (?&_&_&?&_&?&?&_).
    apply (timersConsistent_stopped s); auto.
  - (* reset *)
    destruct (resetCounter_frame s) as (?&_&_&?&_&?&?&_&?).
    apply (timersConsistent_stopped s); auto.
  - (* select *)
    destruct (handleSelectExercise_frame exercise s) as (?&_&_&?&_&?&?&_&?).
    apply (timersConsistent_stopped s); auto.
  - (* a timer fires *)
    destruct (timers s !! id) as [[captured|]|] eqn:Hid; [| |exact Hcons].
    + destruct (begin_frame captured src s) as (?&_&_&?&?&?&?&?).
      apply (timersConsistent_same s); auto.
    + unfold timersConsistent. cbn. split_consistent.
      * exact Hb.
      * intros r Hr H. apply lookup_delete_Some in H as [_ H]. exact (Hn r Hr H).
      * intros H. destruct (Hci H) as (r & ex & Hr & Hl & Hs). exists r, ex.
        repeat split; try assumption.
        rewrite lookup_delete_ne; [exact Hl|]. intros <-. congruence.
      * discriminate.
      * intros _ j Hj. apply lookup_delete_Some in Hj as [Hne Hj].
        apply Hne. exact (Hu id j Hid Hj).
      * intros a b Ha Hb'. apply lookup_delete_Some in Ha as [_ Ha].
        apply lookup_delete_Some in Hb' as [_ Hb']. exact (Hu a b Ha Hb').
  - (* a classification resolves *)
    destruct (pending s !! i) as [req|] eqn:Hi; [|exact Hcons].
    set (s0 := set_pending (delete i) s).
    destruct (resume_shape position s0) as (Hc & Hre & _ & Hcase).
    pose proof (resume_selectedExercise position s0) as Hse.
    destruct Hcase as [((_ & _ & Hcd0) & Htm & Hnt & Hcd) | (_ & Htm & Hnt & Hcd)].
    + cbn [s0 set_pending repStateCooldown] in Hcd0.
      unfold timersConsistent. rewrite Hc, Hre, Hse, Htm, Hnt, Hcd.
      cbn [s0 set_pending isCounting analysisIntervalRef selectedExercise timers
             nextTimer].
      split_consistent.
      * intros r Hr. specialize (Hb r Hr). lia.
      * intros r Hr. specialize (Hb r Hr).
        rewrite lookup_insert_ne by lia. exact (Hn r Hr).
      * intros H. destruct (Hci H) as (r & ex & Hr & Hl & Hs). exists r, ex.
        repeat split; try assumption. specialize (Hb r Hr).
        rewrite lookup_insert_ne by lia. exact Hl.
      * intros _. exists (nextTimer s). apply lookup_insert_eq.
      * discriminate.
      * intros a b Ha Hb'.
        apply lookup_insert_Some in Ha as [[<- _] | [_ Ha]];
          [|destruct (Hoff Hcd0 a Ha)].
        apply lookup_insert_Some in Hb' as [[<- _] | [_ Hb']];
          [reflexivity|destruct (Hoff Hcd0 b Hb')].
    + apply (timersConsistent_same s); auto.
Qed.

Lemma Reachable_timersConsistent s : Reachable s -> timersConsistent s.
Proof.
  induction 1 as [|e s Hs IH He]; [apply timersConsistent_initial|].
  apply timersConsistent_step; [apply Reachable_invariant, Hs|exact IH|exact He].
Qed.

End AppInvariants.

Section AppBehaviour.
Import App.

(** In a reachable state an active analysis interval belongs to a counting
    component and closed over the exercise selected now. *)
Lemma counting_has_interval s id captured :
  Reachable s -> timers s !! id = Some (AnalysisInterval captured) ->
  isCounting s = true
  /\ exists exercise, captured = Some exercise /\ selectedExercise s = Some exercise.
Proof.
  intros Hs Hid. pose proof (Reachable_invariant s Hs) as (Ht & _).
  pose proof (Reachable_timersConsistent s Hs) as (_ & _ & Hci & _).
  destruct (Ht id captured Hid) as [Hr Hc]. split; [exact Hc|].
  destruct (Hci Hc) as (r & ex & Hr' & Hl & Hse). exists ex.
  split; [|exact Hse]. congruence.
Qed.

(** X4.  In every reachable state: while the component counts, exactly one
    analysis interval is active, it is the one [analysisIntervalRef] holds,
    and its callback closed over the exercise that is selected now; while
    it does not count, no analysis interval is active. *)
Theorem counting_runs_one_interval s :
  Reachable s ->
  (isCounting s = true ->
     exists id exercise,
       analysisIntervalRef s = Some id
       /\ timers s !! id = Some (AnalysisInterval (Some exercise))
       /\ selectedExercise s = Some exercise
       /\ forall j captured, timers s !! j = Some (AnalysisInterval captured) -> j = id)
  /\ (isCounting s = false -> samplingStopped s).
Proof.
  intros Hs. pose proof (Reachable_invariant s Hs) as (Ht & _).
  pose proof (Reachable_timersConsistent s Hs) as (_ & _ & Hci & _).
  split.
  - intros Hc. destruct (Hci Hc) as (id & ex & Hr & Hl & Hse).
    exists id, ex. repeat split; try assumption.
    intros j k Hj. apply Ht in Hj as [Hj _]. congruence.
  - intros Hc id captured H. apply Ht in H as [_ H]. congruence.
Qed.

Lemma counting_runs_one_interval_witness :
  samplingStopped Session.afterCountPaused.
Proof.
  refine (proj2 (counting_runs_one_interval Session.afterCountPaused _) eq_refl).
  apply Reachable_run; [apply Reachable_initial|reflexivity].
Defined.

(** X5.  In every reachable state the cooldown flag is on exactly while a
    cooldown timeout is pending, and at most one is ever pending: the flag
    cannot stay on for want of a timer, and a timeout that fires never
    belongs to an earlier repetition. *)
Theorem cooldown_iff_timeout_pending s :
  Reachable s ->
  (repStateCooldown s = true <-> exists id, timers s !! id = Some CooldownTimeout)
  /\ (forall i j, timers s !! i = Some CooldownTimeout ->
        timers s !! j = Some CooldownTimeout -> i = j).
Proof.
  intros Hs.
  pose proof (Reachable_timersConsistent s Hs) as (_ & _ & _ & Hon & Hoff & Hu).
  split; [|exact Hu]. split; [exact Hon|].
  intros [id Hid]. destruct (repStateCooldown s) eqn:E; [reflexivity|].
  destruct (Hoff eq_refl id Hid).
Qed.

Lemma cooldown_iff_timeout_pending_witness :
  exists id, timers Session.afterCount !! id = Some CooldownTimeout.
Proof.
  refine (proj1 (proj1 (cooldown_iff_timeout_pending Session.afterCount _)) eq_refl).
  apply Reachable_run; [apply Reachable_initial|reflexivity].
Defined.

Lemma stopCounting_timeouts s id :
  timersConsistent s ->
  (timers (stopCounting s) !! id = Some CooldownTimeout
   <-> timers s !! id = Some CooldownTimeout).
Proof.
  intros (_ & Hn & _). rewrite stopCounting_timers.
  destruct (analysisIntervalRef s) as [r|] eqn:Hr; [|reflexivity].
  rewrite lookup_delete_Some. split; [tauto|].
  intros H. split; [|exact H]. intros <-. exact (Hn r eq_refl H).
Qed.

(** X6.  In a reachable state, stopping, resetting, selecting an exercise
    and unmounting leave a pending cooldown timeout in place (and register
    none). *)
Theorem handlers_keep_cooldown_timeout s id kind :
  Reachable s ->
  (timers (stopCounting s) !! id = Some CooldownTimeout
   <-> timers s !! id = Some CooldownTimeout)
  /\ (timers (resetCounter s) !! id = Some CooldownTimeout
      <-> timers s !! id = Some CooldownTimeout)
  /\ (timers (handleSelectExercise kind s) !! id = Some CooldownTimeout
      <-> timers s !! id = Some CooldownTimeout)
  /\ (timers (unmount s) !! id = Some CooldownTimeout
      <-> timers s !! id = Some CooldownTimeout).
Proof.
  intros Hs. apply Reachable_timersConsistent in Hs.
  destruct (resetCounter_frame s) as (_&_&_&_&_&_&_&_&Hr).
  destruct (handleSelectExercise_frame kind s) as (_&_&_&_&_&_&_&_&Hh).
  rewrite Hr, Hh. repeat split; try apply (stopCounting_timeouts s id Hs).
  - rewrite <- (stopCounting_timeouts s id Hs), stopCounting_timers.
    unfold unmount. destruct (analysisIntervalRef s); intros H; exact H.
  - rewrite <- (stopCounting_timeouts s id Hs), stopCounting_timers.
    unfold unmount. destruct (analysisIntervalRef s); intros H; exact H.
Qed.

Lemma handlers_keep_cooldown_timeout_witness :
  timers (resetCounter Session.afterCount) !! 2%positive = Some CooldownTimeout.
Proof.
  refine (proj2 (proj1 (proj2
            (handlers_keep_cooldown_timeout Session.afterCount 2%positive Squats _)))
          eq_refl).
  apply Reachable_run; [apply Reachable_initial|reflexivity].
Defined.

(** X7.  In a reachable state a timer that fires issues at most one
    classification request, only while the component counts, and always
    for the exercise that is selected now, with the image just captured:
    the stale closure of the interval callback is harmless. *)
Theorem tick_requests_selected_exercise s id src :
  Reachable s ->
  pending (step (TimerFires id src) s) = pending s
  \/ (exists img exercise,
        isCounting s = true
        /\ selectedExercise s = Some exercise
        /\ base64Image src = Some img
        /\ pending (step (TimerFires id src) s) = pending s ++ [(img, exercise)]).
Proof.
  intros Hs. cbn [step].
  destruct (timers s !! id) as [[captured|]|] eqn:Hid; [| left; reflexivity ..].
  destruct (counting_has_interval s id captured Hs Hid) as (Hc & ex & -> & Hse).
  unfold analyzeFrame_begin.
  destruct (capture (Some ex) src) as [[img e]|] eqn:Hcap; [|left; reflexivity].
  right. exists img, e. unfold capture in Hcap.
  destruct (negb (videoRef_current src) || negb (canvasRef_current src));
    [discriminate|].
  destruct (negb (context2d src)); [discriminate|].
  destruct (base64Image src) as [i|]; [|discriminate].
  destruct (String.eqb i ""); [discriminate|].
  injection Hcap as -> ->. repeat split; assumption.
Qed.

Lemma tick_requests_selected_exercise_witness :
  pending (step (TimerFires 1 Session.frame) Session.afterCount) = pending Session.afterCount
  \/ (exists img exercise,
        isCounting Session.afterCount = true
        /\ selectedExercise Session.afterCount = Some exercise
        /\ base64Image Session.frame = Some img
        /\ pending (step (TimerFires 1 Session.frame) Session.afterCount)
           = pending Session.afterCount ++ [(img, exercise)]).
Proof.
  refine (tick_requests_selected_exercise Session.afterCount 1 Session.frame _).
  apply Reachable_run; [apply Reachable_initial|reflexivity].
Defined.

(** *** How high the count can get *)

Lemma step_bounds e s :
  0 <= repCount s ->
  0 <= repCount (step e s)
  /\ repCount (step e s) <= repCount s + labelsResolved UP [e]
  /\ repCount (step e s) + halfRep (step e s)
     <= repCount s + halfRep s + labelsResolved DOWN [e].
Proof.
  intros H0. unfold halfRep.
  destruct e as [o| | | |exercise|id src|i position]; cbn [step labelsResolved].
  - destruct o as [[]| |]; cbn; repeat case_bool_decide; try congruence; lia.
  - unfold startCounting. destruct (selectedExercise s); cbn; repeat case_bool_decide; try congruence; lia.
  - destruct (stopCounting_frame s) as (_&->&->&_). repeat case_bool_decide; try congruence; lia.
  - destruct (resetCounter_frame s) as (_&->&->&_). cbn. repeat case_bool_decide; try congruence; lia.
  - destruct (handleSelectExercise_frame exercise s) as (_&->&->&_). cbn.
    repeat case_bool_decide; try congruence; lia.
  - destruct (timers s !! id) as [[captured|]|].
    + destruct (begin_frame captured src s) as (_&->&->&_). repeat case_bool_decide; try congruence; lia.
    + cbn. repeat case_bool_decide; try congruence; lia.
    + repeat case_bool_decide; try congruence; lia.
  - destruct (pending s !! i).
    + rewrite resume_repCount, resume_lastPosition. cbn.
      destruct (repStateCooldown s), (lastPosition s), position; cbn;
        repeat case_bool_decide; try congruence; cbn [andb negb]; lia.
    + repeat case_bool_decide; try congruence; lia.
Qed.

Lemma labelsResolved_cons p e es :
  labelsResolved p (e :: es) = labelsResolved p [e] + labelsResolved p es.
Proof. destruct e; cbn; lia. Qed.

Lemma run_bounds es s :
  0 <= repCount s ->
  0 <= repCount (run es s)
  /\ repCount (run es s) <= repCount s + labelsResolved UP es
  /\ repCount (run es s) + halfRep (run es s)
     <= repCount s + halfRep s + labelsResolved DOWN es.
Proof.
  revert s. induction es as [|e es IH]; intros s H0.
  - cbn. lia.
  - destruct (step_bounds e s H0) as (H1 & H2 & H3).
    destruct (IH (step e s) H1) as (H4 & H5 & H6).
    rewrite (labelsResolved_cons UP), (labelsResolved_cons DOWN).
    change (run (e :: es) s) with (run es (step e s)). lia.
Qed.

(** X8.  Whatever happens in a session (any events, in any order, allowed by
    the page or not), the count is never negative and never exceeds the
    number of classifications that resolved to [UP], nor the number that
    resolved to [DOWN]: every counted repetition has its own [DOWN] and its
    own [UP]. *)
Theorem repCount_bounded_by_labels es :
  0 <= repCount (run es initial)
  /\ repCount (run es initial) <= labelsResolved UP es
  /\ repCount (run es initial) <= labelsResolved DOWN es.
Proof.
  destruct (run_bounds es initial) as (H1 & H2 & H3); [cbn; lia|].
  change (repCount initial) with 0 in H2, H3.
  change (halfRep initial) with 0 in H3.
  assert (0 <= halfRep (run es initial))
    by (unfold halfRep; case_bool_decide; lia).
  lia.
Qed.

(** *** The cooldown window *)

Lemma resume_cooldown_on position s :
  repStateCooldown s = true ->
  analyzeFrame_resume position s = setFeedbackMessage (RepState_value position) s.
Proof. intros H. unfold analyzeFrame_resume. cbn. rewrite H. reflexivity. Qed.

(** X9.  While the cooldown flag is on, no classification result, however
    many resolve, changes the count, [lastPosition], the flag or the timers:
    a [DOWN] followed by an [UP] inside the window is not a repetition. *)
Theorem cooldown_freezes l s :
  repStateCooldown s = true ->
  repCount (run (resolutions l) s) = repCount s
  /\ lastPosition (run (resolutions l) s) = lastPosition s
  /\ repStateCooldown (run (resolutions l) s) = true
  /\ timers (run (resolutions l) s) = timers s.
Proof.
  revert s. induction l as [|[i p] l IH]; intros s Hc; [repeat split; exact Hc|].
  change (run (resolutions ((i, p) :: l)) s)
    with (run (resolutions l) (step (ClassificationResolves i p) s)).
  assert (repCount (step (ClassificationResolves i p) s) = repCount s
          /\ lastPosition (step (ClassificationResolves i p) s) = lastPosition s
          /\ repStateCooldown (step (ClassificationResolves i p) s) = true
          /\ timers (step (ClassificationResolves i p) s) = timers s)
    as (H1 & H2 & H3 & H4).
  { cbn [step]. destruct (pending s !! i); [|repeat split; exact Hc].
    rewrite resume_cooldown_on by exact Hc. cbn. repeat split; exact Hc. }
  destruct (IH _ H3) as (-> & -> & -> & ->). repeat split; assumption.
Qed.

Lemma cooldown_freezes_witness :
  repCount (run (resolutions [(0%nat, DOWN); (0%nat, UP)]) Session.afterCountInFlight)
  = repCount Session.afterCountInFlight.
Proof.
  refine (proj1 (cooldown_freezes [(0%nat, DOWN); (0%nat, UP)]
                   Session.afterCountInFlight _)).
  reflexivity.
Defined.

(** X10.  On a counted repetition the cooldown flag goes on and a timeout is
    registered under the next fresh handle; when that timeout fires the flag
    goes off and the timer table is what it was before the repetition, while
    the count and [lastPosition] keep what the repetition gave them. *)
Theorem cooldown_timeout_round_trip position s src :
  countedEdge position s -> handlesFresh s ->
  repStateCooldown (analyzeFrame_resume position s) = true
  /\ timers (analyzeFrame_resume position s) !! nextTimer s = Some CooldownTimeout
  /\ repStateCooldown
       (step (TimerFires (nextTimer s) src) (analyzeFrame_resume position s)) = false
  /\ timers (step (TimerFires (nextTimer s) src) (analyzeFrame_resume position s))
     = timers s
  /\ repCount (step (TimerFires (nextTimer s) src) (analyzeFrame_resume position s))
     = repCount s + 1
  /\ lastPosition
       (step (TimerFires (nextTimer s) src) (analyzeFrame_resume position s)) = UP.
Proof.
  intros Hedge Hf.
  destruct (resume_shape position s) as (_ & _ & _ & [(_ & Htm & _ & Hcd) | (Hno & _)]);
    [|destruct (Hno Hedge)].
  assert (timers s !! nextTimer s = None) as Hfresh.
  { destruct (timers s !! nextTimer s) eqn:E; [|reflexivity].
    assert (is_Some (timers s !! nextTimer s)) as H by eauto.
    apply Hf in H. lia. }
  assert (timers (analyzeFrame_resume position s) !! nextTimer s = Some CooldownTimeout)
    as Hl by (rewrite Htm; apply lookup_insert_eq).
  split; [exact Hcd|]. split; [exact Hl|].
  cbn [step]. rewrite Hl. cbn.
  rewrite Htm, (delete_insert_id _ _ _ Hfresh), resume_repCount, resume_lastPosition.
  destruct Hedge as (Hd & Hp & Hc). rewrite Hd, Hp, Hc. repeat split.
Qed.

Lemma cooldown_timeout_round_trip_witness :
  timers (step (TimerFires (nextTimer Session.requestInFlight) Session.frame)
            (analyzeFrame_resume UP Session.requestInFlight))
  = timers Session.requestInFlight.
Proof.
  refine (proj1 (proj2 (proj2 (proj2
            (cooldown_timeout_round_trip UP Session.requestInFlight Session.frame _ _))))).
  - repeat split.
  - apply Reachable_invariant.
    apply Reachable_run; [apply Reachable_initial|reflexivity].
Defined.

(** *** Pausing, resuming, resetting *)

Lemma handlesFresh_next s : handlesFresh s -> timers s !! nextTimer s = None.
Proof.
  intros Hf. destruct (timers s !! nextTimer s) eqn:E; [|reflexivity].
  assert (is_Some (timers s !! nextTimer s)) as H by eauto.
  apply Hf in H. lia.
Qed.

Lemma startCounting_frame s exercise :
  selectedExercise s = Some exercise ->
  isCounting (startCounting s) = true
  /\ repCount (startCounting s) = repCount s
  /\ lastPosition (startCounting s) = lastPosition s
  /\ repStateCooldown (startCounting s) = repStateCooldown s
  /\ selectedExercise (startCounting s) = Some exercise
  /\ analysisIntervalRef (startCounting s) = Some (nextTimer s)
  /\ nextTimer (startCounting s) = Pos.succ (nextTimer s)
  /\ pending (startCounting s) = pending s
  /\ timers (startCounting s)
     = <[nextTimer s := AnalysisInterval (Some exercise)]> (timers s).
Proof.
  intros Hsel. unfold startCounting. rewrite Hsel. cbn. rewrite Hsel.
  repeat split.
Qed.

(** X11.  Pausing and resuming keeps the session: [stopCounting] followed by
    [startCounting] leaves the count, [lastPosition], the cooldown flag, the
    selection and the requests in flight as they were, and the component
    counts again on a new interval under a fresh handle; from a reachable
    state that interval is the only one. *)
Theorem pause_resume_keeps_session s exercise :
  selectedExercise s = Some exercise ->
  repCount (startCounting (stopCounting s)) = repCount s
  /\ lastPosition (startCounting (stopCounting s)) = lastPosition s
  /\ repStateCooldown (startCounting (stopCounting s)) = repStateCooldown s
  /\ selectedExercise (startCounting (stopCounting s)) = Some exercise
  /\ pending (startCounting (stopCounting s)) = pending s
  /\ isCounting (startCounting (stopCounting s)) = true
  /\ analysisIntervalRef (startCounting (stopCounting s)) = Some (nextTimer s)
  /\ timers (startCounting (stopCounting s)) !! nextTimer s
     = Some (AnalysisInterval (Some exercise))
  /\ (Reachable s ->
      forall j captured,
        timers (startCounting (stopCounting s)) !! j = Some (AnalysisInterval captured) ->
        j = nextTimer s).
Proof.
  intros Hsel.
  destruct (stopCounting_frame s) as (_ & Hrc & Hl & Hcd & Hse & _ & Hn & Hp).
  rewrite Hsel in Hse.
  destruct (startCounting_frame (stopCounting s) exercise Hse)
    as (-> & -> & -> & -> & -> & -> & _ & -> & ->).
  rewrite Hn. repeat split; try assumption.
  - apply lookup_insert_eq.
  - intros Hs j captured Hj.
    apply lookup_insert_Some in Hj as [[<- _] | [_ Hj]]; [reflexivity|].
    destruct (Reachable_stop_stops s Hs j captured Hj).
Qed.

Lemma pause_resume_keeps_session_witness :
  repCount (startCounting (stopCounting Session.afterCount)) = 1.
Proof.
  refine (proj1 (pause_resume_keeps_session Session.afterCount Squats _)).
  reflexivity.
Defined.

(** X12.  Starting and stopping at once leaves no timer behind: with an
    exercise selected and handles fresh (as in every reachable state),
    [startCounting] followed by [stopCounting] gives back the timer table,
    and the count, [lastPosition] and the cooldown flag with it. *)
Theorem start_stop_round_trip s exercise :
  selectedExercise s = Some exercise -> handlesFresh s ->
  timers (stopCounting (startCounting s)) = timers s
  /\ isCounting (stopCounting (startCounting s)) = false
  /\ repCount (stopCounting (startCounting s)) = repCount s
  /\ lastPosition (stopCounting (startCounting s)) = lastPosition s
  /\ repStateCooldown (stopCounting (startCounting s)) = repStateCooldown s
  /\ pending (stopCounting (startCounting s)) = pending s.
Proof.
  intros Hsel Hf.
  destruct (stopCounting_frame (startCounting s))
    as (Hc & Hrc & Hl & Hcd & _ & _ & _ & Hp).
  rewrite stopCounting_timers, Hrc, Hl, Hcd, Hp.
  destruct (startCounting_frame s exercise Hsel)
    as (_ & -> & -> & -> & _ & -> & _ & -> & ->).
  rewrite (delete_insert_id _ _ _ (handlesFresh_next s Hf)).
  repeat split. exact Hc.
Qed.

Lemma start_stop_round_trip_witness :
  timers (stopCounting (startCounting Session.afterCountPaused))
  = timers Session.afterCountPaused.
Proof.
  refine (proj1 (start_stop_round_trip Session.afterCountPaused Squats _ _)).
  - reflexivity.
  - apply Reachable_invariant.
    apply Reachable_run; [apply Reachable_initial|reflexivity].
Defined.

Lemma delete_twice (m : gmap positive Timer) id : delete id (delete id m) = delete id m.
Proof. apply delete_id, lookup_delete_eq. Qed.

(** X13.  Resetting twice is resetting once, and a selection absorbs what
    came just before it: selecting after a reset, or after another
    selection, gives the state the last selection alone would give. *)
Theorem reset_and_select_absorb s kind kind' :
  resetCounter (resetCounter s) = resetCounter s
  /\ handleSelectExercise kind (resetCounter s) = handleSelectExercise kind s
  /\ handleSelectExercise kind (handleSelectExercise kind' s)
     = handleSelectExercise kind s.
Proof.
  destruct s as [se rc ic cr ce fb lp cd [id|] tm nt pd];
    cbv beta iota zeta delta
      [handleSelectExercise resetCounter stopCounting clearInterval
       setFeedbackMessage setSelectedExercise set_lastPosition setRepCount
       set_timers setIsCounting
       selectedExercise repCount isCounting cameraReady cameraError feedbackMessage
       lastPosition repStateCooldown analysisIntervalRef timers nextTimer pending];
    rewrite ?delete_twice; repeat apply conj; reflexivity.
Qed.

(** *** A tick without a frame *)

(** X14.  A tick issues a request exactly when the interval has an exercise,
    the video and canvas refs and the 2D context are there and the captured
    image is not empty.  In every other case [analyzeFrame] returns before
    touching anything: the state, feedback included, is what it was. *)
Theorem tick_without_frame captured src s classify :
  (capture captured src = None
   <-> captured = None \/ videoRef_current src = false
       \/ canvasRef_current src = false \/ context2d src = false
       \/ base64Image src = None \/ base64Image src = Some ""%string)
  /\ (analyzeFrame_begin captured src s = s <-> capture captured src = None)
  /\ (capture captured src = None -> App.analyzeFrame classify captured src s = s).
Proof.
  split; [|split].
  - unfold capture. destruct captured as [ex|]; [|tauto].
    destruct (videoRef_current src), (canvasRef_current src), (context2d src); cbn;
      try (split; [tauto|]).
    + destruct (base64Image src) as [img|]; [|tauto].
      destruct (String.eqb_spec img ""%string) as [->|Hne].
      * tauto.
      * split; [discriminate|].
        intros [H|[H|[H|[H|[H|H]]]]]; try discriminate H. congruence.
    + intros _. reflexivity.
    + intros _. reflexivity.
    + intros _. reflexivity.
    + intros _. reflexivity.
    + intros _. reflexivity.
    + intros _. reflexivity.
    + intros _. reflexivity.
  - unfold analyzeFrame_begin. destruct (capture captured src) as [req|].
    + split; [|discriminate]. intros H. apply (f_equal pending) in H. cbn in H.
      apply (f_equal (@length _)) in H. rewrite length_app in H. cbn in H. lia.
    + split; reflexivity.
  - intros H. unfold App.analyzeFrame. rewrite H. reflexivity.
Qed.

Lemma tick_without_frame_witness :
  App.analyzeFrame (fun _ _ => UP) (Some Squats)
    {| videoRef_current := true; canvasRef_current := true; context2d := true;
       base64Image := Some ""%string |} Session.requestInFlight
  = Session.requestInFlight.
Proof.
  refine (proj2 (proj2 (tick_without_frame (Some Squats)
            {| videoRef_current := true; canvasRef_current := true; context2d := true;
               base64Image := Some ""%string |} Session.requestInFlight
            (fun _ _ => UP))) _).
  reflexivity.
Defined.

(** *** Unmounting *)

(** X15.  The cleanup of the mount effect stops the sampling in every
    reachable state, and touches nothing else: the count, [lastPosition], the
    cooldown flag and the requests in flight stay. *)
Theorem unmount_stops_sampling s :
  Reachable s ->
  samplingStopped (unmount s)
  /\ repCount (unmount s) = repCount s
  /\ lastPosition (unmount s) = lastPosition s
  /\ repStateCooldown (unmount s) = repStateCooldown s
  /\ isCounting (unmount s) = isCounting s
  /\ pending (unmount s) = pending s.
Proof.
  intros Hs. split.
  - intros id captured H. apply (Reachable_stop_stops s Hs id captured).
    rewrite stopCounting_timers. unfold unmount in H.
    destruct (analysisIntervalRef s); exact H.
  - unfold unmount. destruct (analysisIntervalRef s); repeat split.
Qed.

Lemma unmount_stops_sampling_witness :
  samplingStopped (unmount Session.requestInFlight).
Proof.
  refine (proj1 (unmount_stops_sampling Session.requestInFlight _)).
  apply Reachable_run; [apply Reachable_initial|reflexivity].
Defined.

End AppBehaviour.

(** ** The prompts *)
Section Prompts.
Import Gemini.

(** X16.  Every exercise gets a prompt of its own: the prompt starts with the
    base instructions, which name the exercise, and no two exercises share a
    prompt, so the request sent to the model determines both the image and
    the exercise. *)
Theorem prompts_distinguish_exercises :
  (forall e, String.prefix (basePrompt e) (getPromptForExercise e) = true)
  /\ (forall e1 e2, getPromptForExercise e1 = getPromptForExercise e2 -> e1 = e2)
  /\ (forall img1 e1 img2 e2,
        request img1 e1 = request img2 e2 -> img1 = img2 /\ e1 = e2).
Proof.
  assert (forall e1 e2, getPromptForExercise e1 = getPromptForExercise e2 -> e1 = e2)
    as Hinj.
  { intros e1 e2 H. destruct e1, e2; try reflexivity; vm_compute in H; discriminate H. }
  split; [|split].
  - intros []; vm_compute; reflexivity.
  - exact Hinj.
  - intros img1 e1 img2 e2 H. unfold request in H.
    injection H as Himg Hp. split; [exact Himg|apply Hinj, Hp].
Qed.

End Prompts.
